(** * GitHub issue reader: a shallow embedding of
      [src/github_integration/issue_reader.py]

    The Python module is embedded as Rocq functions over an explicit world
    (the requests sent, the clock readings taken, the sleeps performed).
    The transport, the clock and the process environment are the module's
    collaborators; they are variables of the sections below, so every
    theorem holds for all of them. *)

From Stdlib Require Import ZArith String Ascii List Lia.
From stdpp Require Import base option list gmap strings pretty.

Set Warnings "-register-all".
Local Open Scope string_scope.
Local Open Scope list_scope.
Local Open Scope Z_scope.

(** ** Python values *)

Module Py.

(** Truthiness of the values the module tests with [if x:] / [x or y]. *)
Definition truthy_str (s : string) : bool :=
match s with EmptyString => false | String _ _ => true end.

Definition truthy_list {A : Type} (l : list A) : bool :=
match l with [] => false | _ :: _ => true end.

(** [sep.join(l)]. *)
Definition join (sep : string) (l : list string) : string := String.concat sep l.

(** [str.lower] on ASCII letters. *)
Definition lower_ascii (c : ascii) : ascii :=
let n := nat_of_ascii c in
if ((65 <=? n) && (n <=? 90))%nat then ascii_of_nat (n + 32) else c.

Fixpoint lower (s : string) : string :=
match s with
| EmptyString => EmptyString
| String c s' => String (lower_ascii c) (lower s')
end.

(** The characters [int()] strips around a literal. *)
Definition is_space (c : ascii) : bool :=
let n := nat_of_ascii c in
(((9 <=? n) && (n <=? 13)) || ((28 <=? n) && (n <=? 32)))%nat.

Definition digit_of (c : ascii) : option Z :=
let n := nat_of_ascii c in
if ((48 <=? n) && (n <=? 57))%nat then Some (Z.of_nat (n - 48)) else None.

Fixpoint lstrip (l : list ascii) : list ascii :=
match l with
| c :: l' => if is_space c then lstrip l' else l
| [] => []
end.

Definition strip (l : list ascii) : list ascii := rev (lstrip (rev (lstrip l))).

(** Decimal digits, single underscores allowed between two digits.
  [sep] tells that the previous character was not a digit, so that a
  digit has to follow. *)
Fixpoint digits (acc : Z) (sep : bool) (l : list ascii) : option Z :=
match l with
| [] => if sep then None else Some acc
| c :: l' =>
    match digit_of c with
    | Some d => digits (10 * acc + d) false l'
    | None =>
        if (Ascii.eqb c "_" && negb sep)%bool then digits acc true l' else None
    end
end.

(** [int(s)] for a [str] in base 10; [None] is Python's [ValueError].
  Only ASCII digits and ASCII white space are recognised. *)
Definition int (s : string) : option Z :=
match strip (list_ascii_of_string s) with
| "-"%char :: l => Z.opp <$> digits 0 true l
| "+"%char :: l => digits 0 true l
| l => digits 0 true l
end.

End Py.

(** ** JSON values, as [response.json()] returns them *)

Inductive JSON : Type :=
  | JNull
  | JBool (b : bool)
  | JNum (n : Z)
  | JStr (s : string)
  | JArr (l : list JSON)
  | JObj (items : list (string * JSON)).

(** A dict is kept as its items in insertion order; keys are distinct. *)
Fixpoint assoc {A : Type} (k : string) (items : list (string * A)) : option A :=
  match items with
  | [] => None
  | (k', v) :: items' => if String.eqb k k' then Some v else assoc k items'
  end.

(** ** HTTP messages *)

(** Values of the [params] mapping handed to [requests]. *)
Inductive QVal : Type := QStr (s : string) | QInt (n : Z).

(** [requests.structures.CaseInsensitiveDict]: keys are stored lower-cased
    and every access lower-cases the key it is given. *)
Module CaseInsensitiveDict.
Definition t : Type := gmap string string.
Definition get (k : string) (h : t) : option string := h !! Py.lower k.
Definition contains (k : string) (h : t) : bool := bool_decide (is_Some (get k h)).
Definition set (k v : string) (h : t) : t := <[Py.lower k := v]> h.
(** [h.update({k1: v1, ...})], left to right. *)
Definition update (kvs : list (string * string)) (h : t) : t :=
  fold_left (fun h kv => set kv.1 kv.2 h) kvs h.
End CaseInsensitiveDict.

Record Request : Type := mkRequest {
  method : string;
  url : string;
  params : option (gmap string QVal);
  request_headers : gmap string string
}.

Record Response : Type := mkResponse {
  status_code : Z;
  headers : gmap string string;
  text : string;
  (** what [response.json()] decodes [text] to, [None] if it does not decode *)
  decoded : option JSON
}.

(** ** Exceptions and the monad of the module *)

Inductive Exn : Type :=
  | ValueError (msg : string)
  | KeyError (key : string)
  | TypeError
  | HTTPError (response : Response)
  | JSONDecodeError.

(** What the mocks observe: the requests handed to the transport, the number
    of clock readings, the arguments of [time.sleep], in order. *)
Record World : Type := mkWorld {
  sent : list Request;
  clock_reads : nat;
  slept : list Z
}.

(** [Pending]: the [while True] loop is still running when the fuel ends. *)
Inductive Outcome (A : Type) : Type :=
  | Return (a : A)
  | Raise (e : Exn)
  | Pending.
Arguments Return {A} a.
Arguments Raise {A} e.
Arguments Pending {A}.

Definition M (A : Type) : Type := World -> Outcome A * World.

Definition ret {A : Type} (a : A) : M A := fun w => (Return a, w).
Definition raise {A : Type} (e : Exn) : M A := fun w => (Raise e, w).
Definition bind {A B : Type} (m : M A) (k : A -> M B) : M B :=
  fun w =>
    match m w with
    | (Return a, w') => k a w'
    | (Raise e, w') => (Raise e, w')
    | (Pending, w') => (Pending, w')
    end.

Declare Scope py_scope.
Delimit Scope py_scope with py.
Notation "'let*' x := m 'in' k" := (bind m (fun x => k))
  (at level 10, x name, m at level 100, k at level 200) : py_scope.
Notation "m >> k" := (bind m (fun _ => k))
  (at level 100, k at level 200, right associativity) : py_scope.
Local Open Scope py_scope.

Definition of_option {A : Type} (e : Exn) (o : option A) : M A :=
  match o with Some a => ret a | None => raise e end.

(** Subscripting and iteration of a decoded JSON value. *)
Definition getitem (v : JSON) (k : string) : M JSON :=
  match v with
  | JObj items => of_option (KeyError k) (assoc k items)
  | _ => raise TypeError
  end.

Definition iter (v : JSON) : M (list JSON) :=
  match v with
  | JArr l => ret l
  | JObj items => ret (map (fun kv => JStr kv.1) items)
  | JStr s => ret (map (fun c => JStr (String c EmptyString)) (list_ascii_of_string s))
  | _ => raise TypeError
  end.

(** [[f(x) for x in l]]: elements are evaluated left to right, the first
    exception ends the comprehension. *)
Fixpoint comprehension {A B : Type} (f : A -> M B) (l : list A) : M (list B) :=
  match l with
  | [] => ret []
  | x :: l' =>
      let* y := f x in
      let* ys := comprehension f l' in
      ret (y :: ys)
  end.

Definition response_json (response : Response) : M JSON :=
  of_option JSONDecodeError (decoded response).

(** ** The client *)

Record GitHubIssueReader : Type := mkReader {
  token : string;
  base_url : string;
  (** [self.session.headers] *)
  session_headers : gmap string string
}.

(** The [since] argument: a string or a [datetime]. *)
Inductive Since (datetime : Type) : Type :=
  | SinceStr (s : string)
  | SinceDatetime (d : datetime).
Arguments SinceStr {datetime} s.
Arguments SinceDatetime {datetime} d.

Section Client.

(** The [k]-th call of [session.request] answers [transport k request]. *)
Variable transport : nat -> Request -> Response.
(** The [k]-th evaluation of [int(time.time())] reads [clock k]. *)
Variable clock : nat -> Z.
(** [os.environ]. *)
Variable environ : gmap string string.
(** The headers a fresh [requests.Session()] starts with. *)
Variable default_headers : gmap string string.
(** [datetime.datetime] and its [isoformat()]. *)
Variable datetime : Type.
Variable isoformat : datetime -> string.

(** *** Collaborators *)

Definition session_request (self : GitHubIssueReader) (method url : string)
    (params : option (gmap string QVal)) : M Response :=
  fun w =>
    let req := mkRequest method url params (session_headers self) in
    (Return (transport (length (sent w)) req),
     mkWorld (sent w ++ [req]) (clock_reads w) (slept w)).

Definition time_time : M Z :=
  fun w => (Return (clock (clock_reads w)),
            mkWorld (sent w) (S (clock_reads w)) (slept w)).

Definition time_sleep (secs : Z) : M unit :=
  fun w => (Return tt, mkWorld (sent w) (clock_reads w) (slept w ++ [secs])).

(** [int(response.headers[k])]. *)
Definition int_header (k : string) (response : Response) : M Z :=
  let* v := of_option (KeyError (Py.lower k))
              (CaseInsensitiveDict.get k (headers response)) in
  of_option (ValueError "invalid literal for int() with base 10") (Py.int v).

(** [response.raise_for_status()]. *)
Definition raise_for_status (response : Response) : M unit :=
  if (400 <=? status_code response) && (status_code response <? 600)
  then raise (HTTPError response) else ret tt.

(** *** [GitHubIssueReader.__init__] *)

(** [token or os.getenv('GITHUB_TOKEN')] *)
Definition token_or_env (token : option string) : option string :=
  match token with
  | Some s => if Py.truthy_str s then Some s else environ !! "GITHUB_TOKEN"
  | None => environ !! "GITHUB_TOKEN"
  end.

Definition __init__ (token : option string) : M GitHubIssueReader :=
  match token_or_env token with
  | Some tok =>
      if Py.truthy_str tok then
        ret (mkReader tok "https://api.github.com"
               (CaseInsensitiveDict.update
                  [("Authorization", "token " +:+ tok);
                   ("Accept", "application/vnd.github.v3+json");
                   ("User-Agent", "Claude-MCP-GitHub-Integration")]
                  default_headers))
      else raise (ValueError "GitHub token is required. Provide it directly or set GITHUB_TOKEN environment variable.")
  | None => raise (ValueError "GitHub token is required. Provide it directly or set GITHUB_TOKEN environment variable.")
  end.

(** *** Rate limiting and the request loop *)

Definition _handle_rate_limit (response : Response) : M unit :=
  if (status_code response =? 403)
     && CaseInsensitiveDict.contains "X-RateLimit-Remaining" (headers response)
  then
    let* remaining := int_header "X-RateLimit-Remaining" response in
    if remaining =? 0 then
      let* reset_time := int_header "X-RateLimit-Reset" response in
      let* now := time_time in
      let sleep_time := reset_time - now + 1 in
      if sleep_time >? 0 then time_sleep (Z.min sleep_time 3600) else ret tt
    else ret tt
  else ret tt.

(** One [fuel] per iteration of [while True]. *)
Fixpoint _make_request (fuel : nat) (self : GitHubIssueReader)
    (method url : string) (params : option (gmap string QVal)) : M Response :=
  match fuel with
  | O => fun w => (Pending, w)
  | S fuel' =>
      let* response := session_request self method url params in
      if status_code response =? 200 then ret response
      else if status_code response =? 403 then
        _handle_rate_limit response >> _make_request fuel' self method url params
      else
        raise_for_status response >> _make_request fuel' self method url params
  end.

(** *** Resource fetchers *)

Definition get_issue (fuel : nat) (self : GitHubIssueReader)
    (owner repo : string) (issue_number : Z) : M JSON :=
  let url := base_url self +:+ "/repos/" +:+ owner +:+ "/" +:+ repo
             +:+ "/issues/" +:+ pretty issue_number in
  let* response := _make_request fuel self "GET" url None in
  response_json response.

(** [if x: params[k] = x] for an optional string [x]. *)
Definition set_if (k : string) (x : option string)
    (params : gmap string QVal) : gmap string QVal :=
  match x with
  | Some s => if Py.truthy_str s then <[k := QStr s]> params else params
  | None => params
  end.

(** [if labels: params['labels'] = ','.join(labels)] *)
Definition set_labels (labels : option (list string))
    (params : gmap string QVal) : gmap string QVal :=
  match labels with
  | Some l =>
      if Py.truthy_list l then <["labels" := QStr (Py.join "," l)]> params
      else params
  | None => params
  end.

(** [if since: ... params['since'] = since], a [datetime] being turned
    into its ISO string first; a [datetime] is always true. *)
Definition set_since (since : option (Since datetime))
    (params : gmap string QVal) : gmap string QVal :=
  match since with
  | Some (SinceDatetime d) => <["since" := QStr (isoformat d)]> params
  | Some (SinceStr s) => set_if "since" (Some s) params
  | None => params
  end.

(** The [params] mapping [list_issues] builds before it sends the request. *)
Definition list_issues_params (state : string) (labels : option (list string))
    (assignee creator mentioned : option string)
    (since : option (Since datetime)) (per_page page : Z) : gmap string QVal :=
  let params : gmap string QVal :=
    <["page" := QInt page]>
      (<["per_page" := QInt (Z.min per_page 100)]>
         (<["state" := QStr state]> ∅)) in
  let params := set_labels labels params in
  let params := set_if "assignee" assignee params in
  let params := set_if "creator" creator params in
  let params := set_if "mentioned" mentioned params in
  set_since since params.

Definition list_issues (fuel : nat) (self : GitHubIssueReader)
    (owner repo state : string) (labels : option (list string))
    (assignee creator mentioned : option string)
    (since : option (Since datetime)) (per_page page : Z) : M JSON :=
  let url := base_url self +:+ "/repos/" +:+ owner +:+ "/" +:+ repo
             +:+ "/issues" in
  let params :=
    list_issues_params state labels assignee creator mentioned since
      per_page page in
  let* response := _make_request fuel self "GET" url (Some params) in
  response_json response.

Definition get_issue_comments_params (per_page page : Z) : gmap string QVal :=
  <["page" := QInt page]> (<["per_page" := QInt (Z.min per_page 100)]> ∅).

Definition get_issue_comments (fuel : nat) (self : GitHubIssueReader)
    (owner repo : string) (issue_number per_page page : Z) : M JSON :=
  let url := base_url self +:+ "/repos/" +:+ owner +:+ "/" +:+ repo
             +:+ "/issues/" +:+ pretty issue_number +:+ "/comments" in
  let params := get_issue_comments_params per_page page in
  let* response := _make_request fuel self "GET" url (Some params) in
  response_json response.

(** *** The reshaping layer *)

(** The dict display both MCP functions build from one raw issue (lines
    174-185 and 224-235); its entries are evaluated top to bottom. *)
Definition mcp_format (issue : JSON) : M JSON :=
  let* title := getitem issue "title" in
  let* body := getitem issue "body" in
  let* state := getitem issue "state" in
  let* number := getitem issue "number" in
  let* created_at := getitem issue "created_at" in
  let* updated_at := getitem issue "updated_at" in
  let* raw_labels := getitem issue "labels" in
  let* raw_labels := iter raw_labels in
  let* labels := comprehension (fun label => getitem label "name") raw_labels in
  let* raw_assignees := getitem issue "assignees" in
  let* raw_assignees := iter raw_assignees in
  let* assignees :=
    comprehension (fun assignee => getitem assignee "login") raw_assignees in
  let* comments_count := getitem issue "comments" in
  let* html_url := getitem issue "html_url" in
  ret (JObj [("title", title); ("body", body); ("state", state);
             ("number", number); ("created_at", created_at);
             ("updated_at", updated_at); ("labels", JArr labels);
             ("assignees", JArr assignees);
             ("comments_count", comments_count); ("url", html_url)]).

Definition mcp_get_issue (fuel : nat) (owner repo : string)
    (issue_number : Z) : M JSON :=
  let* reader := __init__ None in
  let* issue_data := get_issue fuel reader owner repo issue_number in
  mcp_format issue_data.

Definition mcp_list_issues (fuel : nat) (owner repo state : string)
    (labels : option (list string)) (assignee : option string)
    (per_page page : Z) : M JSON :=
  let* reader := __init__ None in
  let* issues_data :=
    list_issues fuel reader owner repo state labels assignee None None None
      per_page page in
  let* issues := iter issues_data in
  let* formatted := comprehension mcp_format issues in
  ret (JArr formatted).

End Client.

(** ** Vocabulary of the specification *)




(** The requests a computation hands to the transport. *)
Definition transmitted {A : Type} (m : M A) (w : World) : list Request :=
  drop (length (sent w)) (sent (m w).2).

(** The sleeps a computation performs. *)
Definition sleeps {A : Type} (m : M A) (w : World) : list Z :=
  drop (length (slept w)) (slept (m w).2).

(** A credential source that yields nothing: unset, or set to the empty
    string. *)
Definition absent (o : option string) : Prop := o = None \/ o = Some "".

(** Every request the computation hands to the transport carries the query
    mapping [ps], and there is at least one such request. *)
Definition transmits {A : Type} (m : M A) (w : World) (ps : gmap string QVal) : Prop :=
  exists req k, transmitted m w = repeat req (S k) /\ params req = Some ps.

(** Computations that leave the world alone. *)
Definition is_pure {A : Type} (m : M A) : Prop :=
  exists o, forall w, m w = (o, w).

(** *** Raw and simplified issue records *)

(** The fields the reshaping layer reads from a raw Issue Record. *)
Definition expected_fields : list string :=
  ["title"; "body"; "state"; "number"; "created_at"; "updated_at";
   "labels"; "assignees"; "comments"; "html_url"].

(** The field [k] of a JSON object. *)
Definition field (k : string) (v : JSON) : option JSON :=
  match v with JObj items => assoc k items | _ => None end.

Definition is_obj (v : JSON) : bool :=
  match v with JObj _ => true | _ => false end.

Definition has_key (k : string) (v : JSON) : bool :=
  match field k v with Some _ => true | None => false end.

(** A field that, where present, is an array of objects. *)
Definition objects (o : option JSON) : bool :=
  match o with
  | Some (JArr l) => forallb is_obj l
  | Some _ => false
  | None => true
  end.

(** A field that is an array whose elements all carry the key [k]. *)
Definition all_have (k : string) (o : option JSON) : bool :=
  match o with
  | Some (JArr l) => forallb (has_key k) l
  | _ => false
  end.

(** A raw Issue Record: a JSON object whose label and assignee lists, where
    present, are arrays of objects. *)
Definition raw_issue (v : JSON) : bool :=
  is_obj v && objects (field "labels" v) && objects (field "assignees" v).

(** The record has every expected field: the ten top-level ones, [name] in
    each label, [login] in each assignee. *)
Definition complete (v : JSON) : bool :=
  forallb (fun k => has_key k v) expected_fields
  && all_have "name" (field "labels" v)
  && all_have "login" (field "assignees" v).

(** The projection of one raw record; it touches nothing in the world. *)
Definition projection (raw : JSON) : Outcome JSON :=
  (mcp_format raw (mkWorld [] 0 [])).1.

(** The transport's next answer, whatever the request, is a 200 whose body
    decodes to [v]. *)
Definition answers (transport : nat -> Request -> Response) (w : World)
    (v : JSON) : Prop :=
  forall req,
    status_code (transport (length (sent w)) req) = 200 /\
    decoded (transport (length (sent w)) req) = Some v.

(** ** Mock collaborators *)

Module Mock.


Definition ok (body : JSON) : Response := mkResponse 200 ∅ "" (Some body).

Definition forbidden : Response := mkResponse 403 ∅ "Forbidden" None.

Definition not_found : Response := mkResponse 404 ∅ "Not Found" None.


(** A transport that plays a script, then keeps answering [last]. *)
Definition script (rs : list Response) (last : Response)
    (k : nat) (_ : Request) : Response :=
  nth k rs last.

Definition w0 : World := mkWorld [] 0 [].

Definition reader : GitHubIssueReader :=
  mkReader "secret" "https://api.github.com" ∅.

Definition clock (_ : nat) : Z := 1000.

Definition environ : gmap string string := {["GITHUB_TOKEN" := "secret"]}.

(** A raw record with every field, and the same record without
    [html_url]. *)
Definition partial_issue : list (string * JSON) :=
  [("title", JStr "Crash on start"); ("body", JStr "It crashes.");
   ("state", JStr "open"); ("number", JNum 7);
   ("created_at", JStr "2024-01-01T00:00:00Z");
   ("updated_at", JStr "2024-01-02T00:00:00Z");
   ("labels", JArr [JObj [("name", JStr "bug")]]);
   ("assignees", JArr [JObj [("login", JStr "alice")]]);
   ("comments", JNum 3)].

Definition issue : JSON :=
  JObj (partial_issue ++ [("html_url", JStr "https://github.com/o/r/issues/7")]).

Definition simplified : JSON :=
  JObj [("title", JStr "Crash on start"); ("body", JStr "It crashes.");
        ("state", JStr "open"); ("number", JNum 7);
        ("created_at", JStr "2024-01-01T00:00:00Z");
        ("updated_at", JStr "2024-01-02T00:00:00Z");
        ("labels", JArr [JStr "bug"]); ("assignees", JArr [JStr "alice"]);
        ("comments_count", JNum 3);
        ("url", JStr "https://github.com/o/r/issues/7")].

Definition no_content : Response := mkResponse 204 ∅ "" None.


End Mock.


(** * Properties *)

Lemma sleeps_app {A : Type} (m : M A) (w : World) (ds : list Z) :
  slept (m w).2 = slept w ++ ds -> sleeps m w = ds.
Proof. intros H. unfold sleeps. rewrite H. apply drop_app_length. Qed.

Lemma transmitted_app {A : Type} (m : M A) (w : World) (rs : list Request) :
  sent (m w).2 = sent w ++ rs -> transmitted m w = rs.
Proof. intros H. unfold transmitted. rewrite H. apply drop_app_length. Qed.




Section RequestLoop.

Variable transport : nat -> Request -> Response.
Variable clock : nat -> Z.

Local Abbreviation handle := (_handle_rate_limit clock).
Local Abbreviation request := (_make_request transport clock).



(** A response that is not a 403 carrying the remaining-calls header is
    left alone: no clock reading, no sleep. *)
Lemma handle_other r w :
  (status_code r =? 403)
  && CaseInsensitiveDict.contains "X-RateLimit-Remaining" (headers r) = false ->
  handle r w = (Return tt, w).
Proof. intros H. unfold _handle_rate_limit. by rewrite H. Qed.


(** *** The loop *)

Lemma make_request_ok fuel self method url params w :
  let req := mkRequest method url params (session_headers self) in
  let r := transport (length (sent w)) req in
  status_code r = 200 ->
  request (S fuel) self method url params w =
    (Return r, mkWorld (sent w ++ [req]) (clock_reads w) (slept w)).
Proof.
  intros req r H. simpl. unfold bind at 1, session_request. fold req. fold r.
  by rewrite H.
Qed.

(** A client or server error other than 403 is raised at once. *)
Lemma make_request_http_error fuel self method url params w :
  let req := mkRequest method url params (session_headers self) in
  let r := transport (length (sent w)) req in
  400 <= status_code r < 600 -> status_code r <> 403 ->
  request (S fuel) self method url params w =
    (Raise (HTTPError r), mkWorld (sent w ++ [req]) (clock_reads w) (slept w)).
Proof.
  intros req r H H403. simpl. unfold bind at 1, session_request. fold req. fold r.
  rewrite (proj2 (Z.eqb_neq _ _)) by lia.
  rewrite (proj2 (Z.eqb_neq _ _)) by lia.
  unfold bind, raise_for_status.
  rewrite (proj2 (Z.leb_le _ _)), (proj2 (Z.ltb_lt _ _)) by lia. done.
Qed.


Lemma make_request_forbidden fuel self method url params w :
  let req := mkRequest method url params (session_headers self) in
  let r := transport (length (sent w)) req in
  status_code r = 403 ->
  CaseInsensitiveDict.contains "X-RateLimit-Remaining" (headers r) = false ->
  request (S fuel) self method url params w =
    request fuel self method url params
      (mkWorld (sent w ++ [req]) (clock_reads w) (slept w)).
Proof.
  intros req r Hs Hh. simpl. unfold bind at 1, session_request. fold req. fold r.
  rewrite Hs. simpl. unfold bind at 1. rewrite handle_other; [done|].
  fold r. by rewrite Hs, Hh.
Qed.



(** *** What the loop transmits *)

Lemma handle_sent r w : sent (handle r w).2 = sent w.
Proof.
  unfold _handle_rate_limit, int_header, bind, of_option, ret, raise,
    time_time, time_sleep.
  repeat (case_match; simplify_eq; simpl; try done).
Qed.

Lemma raise_for_status_world r w : (raise_for_status r w).2 = w.
Proof. unfold raise_for_status, raise, ret. by case_match. Qed.

(** The loop hands the transport the same request each time, at least
    once. *)
Lemma make_request_sent fuel : forall self method url params w,
  let req := mkRequest method url params (session_headers self) in
  exists k, (fuel <> 0 -> k <> 0)%nat /\
    sent (request fuel self method url params w).2 = sent w ++ repeat req k.
Proof.
  induction fuel as [|fuel IH]; intros self method url params w req.
  { exists 0%nat. simpl. by rewrite app_nil_r. }
  simpl. unfold bind at 1, session_request. fold req.
  set (r := transport (length (sent w)) req).
  set (w1 := mkWorld (sent w ++ [req]) (clock_reads w) (slept w)).
  assert (Hone : sent w1 = sent w ++ repeat req 1) by done.
  assert (Hmore : forall w2, sent w2 = sent w1 ->
    exists k, (S fuel <> 0 -> k <> 0)%nat /\
      sent (request fuel self method url params w2).2 = sent w ++ repeat req k).
  { intros w2 Hw2. destruct (IH self method url params w2) as (k & _ & Hk).
    exists (S k). split; [done|]. fold req in Hk.
    rewrite Hk, Hw2. simpl. by rewrite <- app_assoc. }
  destruct (status_code r =? 200); [by exists 1%nat|].
  destruct (status_code r =? 403).
  - unfold bind. pose proof (handle_sent r w1) as Hh.
    destruct (handle r w1) as [[[]| |] w2]; simpl in Hh.
    + by apply Hmore.
    + exists 1%nat. simpl. by rewrite Hh.
    + exists 1%nat. simpl. by rewrite Hh.
  - unfold bind. pose proof (raise_for_status_world r w1) as Hh.
    destruct (raise_for_status r w1) as [[[]| |] w2]; simpl in Hh; subst w2.
    + by apply Hmore.
    + by exists 1%nat.
    + by exists 1%nat.
Qed.

(** A transport that keeps answering 403 without the remaining-calls
    header keeps the loop running: no exception, no sleep. *)
Lemma make_request_spins fuel : forall self method url params w,
  let req := mkRequest method url params (session_headers self) in
  (forall k, status_code (transport k req) = 403 /\
     CaseInsensitiveDict.contains "X-RateLimit-Remaining"
       (headers (transport k req)) = false) ->
  request fuel self method url params w =
    (Pending, mkWorld (sent w ++ repeat req fuel) (clock_reads w) (slept w)).
Proof.
  induction fuel as [|fuel IH]; intros self method url params w req H.
  - simpl. rewrite app_nil_r. by destruct w.
  - destruct (H (length (sent w))) as [Hs Hh].
    rewrite (make_request_forbidden _ _ _ _ _ _ Hs Hh), IH by done.
    simpl. by rewrite <- app_assoc.
Qed.

End RequestLoop.

(** C1. A 403 response that is not the throttle condition is retried, not
    raised: against a transport that answers every request with a plain 403
    the loop is still running after any number of iterations, having raised
    nothing and slept never; and a plain 403 followed by a 200 makes the
    primitive return the 200 response after two requests. *)
Theorem make_request_retries_plain_403 clock fuel self method url params w :
  let req := mkRequest method url params (session_headers self) in
  _make_request (fun _ _ => Mock.forbidden) clock fuel self method url params w =
    (Pending, mkWorld (sent w ++ repeat req fuel) (clock_reads w) (slept w)) /\
  _make_request (Mock.script [Mock.forbidden] (Mock.ok JNull)) clock (2 + fuel)
    self method url params Mock.w0 =
    (Return (Mock.ok JNull), mkWorld [req; req] 0 []).
Proof.
  intros req. split.
  - by apply make_request_spins.
  - change (2 + fuel)%nat with (S (S fuel)).
    rewrite make_request_forbidden by done.
    by rewrite make_request_ok.
Qed.

Section Fetchers.

Variable transport : nat -> Request -> Response.
Variable clock : nat -> Z.
Variable environ : gmap string string.
Variable default_headers : gmap string string.
Variable datetime : Type.
Variable isoformat : datetime -> string.

Local Abbreviation init := (__init__ environ default_headers).
Local Abbreviation request := (_make_request transport clock).
Local Abbreviation issues := (list_issues transport clock datetime isoformat).
Local Abbreviation comments := (get_issue_comments transport clock).
Local Abbreviation issues_params := (list_issues_params datetime isoformat).

(** C4. Construction fails with the constructor's [ValueError] (the
    specification's ConfigurationError) when neither the argument nor
    [GITHUB_TOKEN] yields a non-empty credential, and succeeds with the
    first non-empty one otherwise. *)
Theorem credential_required (credential : option string) (w : World) :
  (absent credential -> absent (environ !! "GITHUB_TOKEN") ->
   exists msg, init credential w = (Raise (ValueError msg), w)) /\
  (forall tok, credential = Some tok -> tok <> "" ->
   exists reader, init credential w = (Return reader, w) /\ token reader = tok) /\
  (forall tok, absent credential -> environ !! "GITHUB_TOKEN" = Some tok ->
   tok <> "" ->
   exists reader, init credential w = (Return reader, w) /\ token reader = tok).
Proof.
  unfold __init__, token_or_env, absent. split; [|split].
  - intros [-> | ->] [-> | ->]; simpl; eauto.
  - intros tok -> Htok. destruct tok; [done|]. simpl. eauto.
  - intros tok [-> | ->] -> Htok; destruct tok; try done; simpl; eauto.
Qed.

(** *** What the fetchers transmit *)

Lemma response_json_world (m : M Response) (w : World) :
  (bind m response_json w).2 = (m w).2.
Proof.
  unfold bind, response_json, of_option, ret, raise.
  destruct (m w) as [[r| |] w']; [|done|done]. by destruct (decoded r).
Qed.

Lemma fetch_transmits fuel self method url ps w :
  transmits (bind (request (S fuel) self method url (Some ps)) response_json)
    w ps.
Proof.
  destruct (make_request_sent transport clock (S fuel) self method url (Some ps) w)
    as (k & Hk & Hsent).
  destruct k as [|k]; [by destruct Hk|].
  eexists _, k. split.
  - apply transmitted_app. rewrite response_json_world. exact Hsent.
  - reflexivity.
Qed.

Lemma list_issues_transmits fuel self owner repo state labels assignee creator
    mentioned since per_page page w :
  transmits
    (issues (S fuel) self owner repo state labels assignee creator mentioned
       since per_page page) w
    (issues_params state labels assignee creator mentioned since per_page page).
Proof. apply fetch_transmits. Qed.

Lemma get_issue_comments_transmits fuel self owner repo issue_number per_page
    page w :
  transmits (comments (S fuel) self owner repo issue_number per_page page) w
    (get_issue_comments_params per_page page).
Proof. apply fetch_transmits. Qed.

(** *** Lookups in the query mapping of [list_issues] *)

Lemma lookup_set_if_ne k k' x (ps : gmap string QVal) :
  k <> k' -> set_if k x ps !! k' = ps !! k'.
Proof.
  intros Hne. unfold set_if. destruct x as [s|]; [|done].
  destruct (Py.truthy_str s); [|done]. by rewrite lookup_insert_ne.
Qed.

Lemma lookup_set_if k x (ps : gmap string QVal) :
  ps !! k = None ->
  (absent x -> set_if k x ps !! k = None) /\
  (forall s, x = Some s -> s <> "" -> set_if k x ps !! k = Some (QStr s)).
Proof.
  intros Hk. unfold set_if, absent. split.
  - by intros [-> | ->].
  - intros s -> Hs. destruct s; [done|]. simpl. by rewrite lookup_insert_eq.
Qed.

Lemma lookup_set_labels_ne labels k (ps : gmap string QVal) :
  k <> "labels" -> set_labels labels ps !! k = ps !! k.
Proof.
  intros Hne. unfold set_labels. destruct labels as [l|]; [|done].
  destruct (Py.truthy_list l); [|done]. by rewrite lookup_insert_ne.
Qed.

Lemma lookup_set_since_ne since k (ps : gmap string QVal) :
  k <> "since" -> set_since datetime isoformat since ps !! k = ps !! k.
Proof.
  intros Hne. unfold set_since. destruct since as [[s|d]|]; [| |done].
  - by apply lookup_set_if_ne.
  - by rewrite lookup_insert_ne.
Qed.

Lemma lookup_base k state per_page page :
  k <> "page" -> k <> "per_page" -> k <> "state" ->
  (<["page" := QInt page]>
     (<["per_page" := QInt (Z.min per_page 100)]>
        (<["state" := QStr state]> (∅ : gmap string QVal)))) !! k = None.
Proof. intros. by rewrite !lookup_insert_ne. Qed.

(** C5. Whatever [per_page] is asked for, [list_issues] and
    [get_issue_comments] send their request, and the [per_page] it carries
    is 100 when the argument exceeds 100 and the argument itself
    otherwise. *)
Theorem per_page_clamped fuel self owner repo state labels assignee creator
    mentioned since issue_number per_page page w :
  exists ps qs,
    transmits
      (issues (S fuel) self owner repo state labels assignee creator mentioned
         since per_page page) w ps /\
    transmits (comments (S fuel) self owner repo issue_number per_page page)
      w qs /\
    ps !! "per_page"
      = Some (QInt (if bool_decide (100 < per_page) then 100 else per_page)) /\
    qs !! "per_page"
      = Some (QInt (if bool_decide (100 < per_page) then 100 else per_page)).
Proof.
  eexists _, _.
  split; [apply list_issues_transmits|].
  split; [apply get_issue_comments_transmits|].
  assert (Hmin : Z.min per_page 100
                 = if bool_decide (100 < per_page) then 100 else per_page).
  { case_bool_decide; lia. }
  rewrite <- Hmin. split.
  - unfold list_issues_params.
    rewrite lookup_set_since_ne, !lookup_set_if_ne, lookup_set_labels_ne by done.
    by rewrite lookup_insert_ne, lookup_insert_eq.
  - unfold get_issue_comments_params.
    by rewrite lookup_insert_ne, lookup_insert_eq.
Qed.


(** C6. In the query mapping [list_issues] sends, each of the optional filters
    [assignee], [creator] and [mentioned] has no key at all when it is
    absent or empty, and is present with the given value when it is
    non-empty. *)
Theorem optional_filters_omitted fuel self owner repo state labels assignee
    creator mentioned since per_page page w :
  exists ps,
    transmits
      (issues (S fuel) self owner repo state labels assignee creator mentioned
         since per_page page) w ps /\
    ((absent assignee -> ps !! "assignee" = None) /\
     (forall s, assignee = Some s -> s <> "" ->
        ps !! "assignee" = Some (QStr s))) /\
    ((absent creator -> ps !! "creator" = None) /\
     (forall s, creator = Some s -> s <> "" ->
        ps !! "creator" = Some (QStr s))) /\
    ((absent mentioned -> ps !! "mentioned" = None) /\
     (forall s, mentioned = Some s -> s <> "" ->
        ps !! "mentioned" = Some (QStr s))).
Proof.
  eexists. split; [apply list_issues_transmits|].
  unfold list_issues_params. rewrite !lookup_set_since_ne by done.
  split; [|split].
  - rewrite !(lookup_set_if_ne "mentioned"), !(lookup_set_if_ne "creator")
      by done.
    apply lookup_set_if. rewrite lookup_set_labels_ne by done.
    by apply lookup_base.
  - rewrite !(lookup_set_if_ne "mentioned") by done.
    apply lookup_set_if.
    rewrite lookup_set_if_ne, lookup_set_labels_ne by done.
    by apply lookup_base.
  - apply lookup_set_if.
    rewrite !lookup_set_if_ne, lookup_set_labels_ne by done.
    by apply lookup_base.
Qed.

End Fetchers.

(** ** The reshaping layer *)

Lemma is_pure_ret {A : Type} (a : A) : is_pure (ret a).
Proof. by exists (Return a). Qed.

Lemma is_pure_raise {A : Type} (e : Exn) : is_pure (@raise A e).
Proof. by exists (Raise e). Qed.

Lemma is_pure_bind {A B : Type} (m : M A) (k : A -> M B) :
  is_pure m -> (forall a, is_pure (k a)) -> is_pure (bind m k).
Proof.
  intros [o Ho] Hk. destruct o as [a|e|].
  - destruct (Hk a) as [o' Ho']. exists o'. intros w. unfold bind.
    by rewrite Ho, Ho'.
  - exists (Raise e). intros w. unfold bind. by rewrite Ho.
  - exists Pending. intros w. unfold bind. by rewrite Ho.
Qed.

Lemma is_pure_of_option {A : Type} (e : Exn) (o : option A) :
  is_pure (of_option e o).
Proof. destruct o; [apply is_pure_ret | apply is_pure_raise]. Qed.

Lemma is_pure_getitem v k : is_pure (getitem v k).
Proof.
  destruct v; try apply is_pure_raise. apply is_pure_of_option.
Qed.

Lemma is_pure_iter v : is_pure (iter v).
Proof. destruct v; try apply is_pure_raise; apply is_pure_ret. Qed.

Lemma is_pure_comprehension {A B : Type} (f : A -> M B) (l : list A) :
  (forall x, is_pure (f x)) -> is_pure (comprehension f l).
Proof.
  intros Hf. induction l as [|x l IH]; simpl; [apply is_pure_ret|].
  apply is_pure_bind; [apply Hf|]. intros y.
  apply is_pure_bind; [apply IH|]. intros ys. apply is_pure_ret.
Qed.

Lemma is_pure_mcp_format v : is_pure (mcp_format v).
Proof.
  unfold mcp_format.
  repeat (apply is_pure_bind;
          [first [apply is_pure_getitem | apply is_pure_iter
                 | apply is_pure_comprehension; intros; apply is_pure_getitem]
          | intros ?]).
  apply is_pure_ret.
Qed.

Lemma mcp_format_projection v w : mcp_format v w = (projection v, w).
Proof.
  destruct (is_pure_mcp_format v) as [o Ho]. unfold projection.
  by rewrite !Ho.
Qed.

Lemma bind_ret_l {A B : Type} (m : M A) (k : A -> M B) a w w' :
  m w = (Return a, w') -> bind m k w = k a w'.
Proof. intros H. unfold bind. by rewrite H. Qed.

Lemma bind_raise_l {A B : Type} (m : M A) (k : A -> M B) e w w' :
  m w = (Raise e, w') -> bind m k w = (Raise e, w').
Proof. intros H. unfold bind. by rewrite H. Qed.

Lemma getitem_field v k x w : field k v = Some x -> getitem v k w = (Return x, w).
Proof. destruct v; try done. simpl. by intros ->. Qed.

Lemma comprehension_getitem k ls xs w :
  Forall2 (fun l x => field k l = Some x) ls xs ->
  comprehension (fun l => getitem l k) ls w = (Return xs, w).
Proof.
  induction 1 as [|l x ls xs Hl _ IH]; [done|]. simpl.
  rewrite (bind_ret_l _ _ x w w) by by apply getitem_field.
  by rewrite (bind_ret_l _ _ xs w w).
Qed.

(** The projection of a record that has all its fields. *)
Lemma projection_complete v title body state number created_at updated_at
    labels names assignees logins comments html_url :
  field "title" v = Some title -> field "body" v = Some body ->
  field "state" v = Some state -> field "number" v = Some number ->
  field "created_at" v = Some created_at ->
  field "updated_at" v = Some updated_at ->
  field "labels" v = Some (JArr labels) ->
  Forall2 (fun l x => field "name" l = Some x) labels names ->
  field "assignees" v = Some (JArr assignees) ->
  Forall2 (fun a x => field "login" a = Some x) assignees logins ->
  field "comments" v = Some comments -> field "html_url" v = Some html_url ->
  projection v =
    Return (JObj [("title", title); ("body", body); ("state", state);
                  ("number", number); ("created_at", created_at);
                  ("updated_at", updated_at); ("labels", JArr names);
                  ("assignees", JArr logins);
                  ("comments_count", comments); ("url", html_url)]).
Proof.
  intros Ht Hb Hs Hn Hc Hu Hl Hnames Ha Hlogins Hco Hh.
  unfold projection, mcp_format.
  set (w := mkWorld [] 0 []).
  rewrite (bind_ret_l _ _ _ w w (getitem_field _ _ _ _ Ht)).
  rewrite (bind_ret_l _ _ _ w w (getitem_field _ _ _ _ Hb)).
  rewrite (bind_ret_l _ _ _ w w (getitem_field _ _ _ _ Hs)).
  rewrite (bind_ret_l _ _ _ w w (getitem_field _ _ _ _ Hn)).
  rewrite (bind_ret_l _ _ _ w w (getitem_field _ _ _ _ Hc)).
  rewrite (bind_ret_l _ _ _ w w (getitem_field _ _ _ _ Hu)).
  rewrite (bind_ret_l _ _ _ w w (getitem_field _ _ _ _ Hl)).
  rewrite (bind_ret_l _ _ labels w w) by done.
  rewrite (bind_ret_l _ _ _ w w (comprehension_getitem _ _ _ _ Hnames)).
  rewrite (bind_ret_l _ _ _ w w (getitem_field _ _ _ _ Ha)).
  rewrite (bind_ret_l _ _ assignees w w) by done.
  rewrite (bind_ret_l _ _ _ w w (comprehension_getitem _ _ _ _ Hlogins)).
  rewrite (bind_ret_l _ _ _ w w (getitem_field _ _ _ _ Hco)).
  rewrite (bind_ret_l _ _ _ w w (getitem_field _ _ _ _ Hh)).
  done.
Qed.

Lemma getitem_missing items k w :
  assoc k items = None -> getitem (JObj items) k w = (Raise (KeyError k), w).
Proof. intros H. unfold getitem. by rewrite H. Qed.

Lemma comprehension_objects k l w :
  forallb is_obj l = true ->
  (forallb (has_key k) l = true /\
   exists xs, comprehension (fun v => getitem v k) l w = (Return xs, w)) \/
  (forallb (has_key k) l = false /\
   comprehension (fun v => getitem v k) l w = (Raise (KeyError k), w)).
Proof.
  induction l as [|v l IH]; intros Hobj; [left; split; [done|by exists []]|].
  simpl in Hobj. apply andb_prop in Hobj as [Hv Hl].
  destruct v as [| | | | |items]; try done.
  cbn [comprehension forallb].
  destruct (assoc k items) as [x|] eqn:Hx.
  - assert (Hk : has_key k (JObj items) = true).
    { unfold has_key, field. by rewrite Hx. }
    rewrite Hk, (bind_ret_l _ _ x w w (getitem_field (JObj items) k x w Hx)).
    destruct (IH Hl) as [[Hall [xs Hxs]]|[Hall Hr]].
    + left. split; [done|]. exists (x :: xs).
      by rewrite (bind_ret_l _ _ xs w w).
    + right. split; [done|]. by rewrite (bind_raise_l _ _ (KeyError k) w w).
  - assert (Hk : has_key k (JObj items) = false).
    { unfold has_key, field. by rewrite Hx. }
    right. rewrite Hk. split; [done|].
    by rewrite (bind_raise_l _ _ (KeyError k) w w (getitem_missing items k w Hx)).
Qed.

Ltac top_field w items k x H :=
  destruct (assoc k items) as [x|] eqn:H;
  [ rewrite (bind_ret_l _ _ x w w (getitem_field (JObj _) k x w H))
  | exists k;
    by rewrite (bind_raise_l _ _ (KeyError k) w w (getitem_missing _ k w H)) ].

Ltac list_field w k x Hobj l xs Hall :=
  let Hxs := fresh "Hxs" in
  destruct x as [| | | |l|]; try discriminate Hobj;
  simpl in Hobj;
  rewrite (bind_ret_l _ _ l w w eq_refl);
  destruct (comprehension_objects k l w Hobj) as [[Hall [xs Hxs]]|[Hall Hxs]];
  [ rewrite (bind_ret_l _ _ xs w w Hxs)
  | exists k; by rewrite (bind_raise_l _ _ (KeyError k) w w Hxs) ].

(** A raw record that lacks an expected field projects to a [KeyError]. *)
Lemma projection_incomplete v :
  raw_issue v = true -> complete v = false ->
  exists k, projection v = Raise (KeyError k).
Proof.
  intros Hraw Hc. destruct v as [| | | | |items]; try done.
  unfold raw_issue in Hraw. simpl in Hraw.
  apply andb_prop in Hraw as [Hl Ha].
  unfold projection, mcp_format. set (w := mkWorld [] 0 []).
  top_field w items "title" title Ht. top_field w items "body" body Hb.
  top_field w items "state" state Hs. top_field w items "number" number Hn.
  top_field w items "created_at" created Hcr.
  top_field w items "updated_at" updated Hu.
  top_field w items "labels" labels Hlab.
  list_field w "name" labels Hl l names Hnames.
  top_field w items "assignees" assignees Hass.
  list_field w "login" assignees Ha a logins Hlogins.
  top_field w items "comments" comments Hco.
  top_field w items "html_url" html Hh.
  exfalso. unfold complete, expected_fields, has_key, field in Hc.
  cbn [forallb] in Hc.
  rewrite Ht, Hb, Hs, Hn, Hcr, Hu, Hlab, Hass, Hco, Hh in Hc.
  unfold all_have in Hc. rewrite Hnames, Hlogins in Hc. done.
Qed.

Lemma has_key_field k v : has_key k v = true -> exists x, field k v = Some x.
Proof. unfold has_key. destruct (field k v); [eauto|done]. Qed.

Lemma forallb_has_key k l :
  forallb (has_key k) l = true ->
  exists xs, Forall2 (fun v x => field k v = Some x) l xs.
Proof.
  induction l as [|v l IH]; [by exists []|]. simpl.
  intros [Hv Hl]%andb_prop. destruct (has_key_field _ _ Hv) as [x Hx].
  destruct (IH Hl) as [xs Hxs]. exists (x :: xs). by constructor.
Qed.

Lemma all_have_field k o :
  all_have k o = true ->
  exists l xs, o = Some (JArr l) /\ Forall2 (fun v x => field k v = Some x) l xs.
Proof.
  destruct o as [[| | | |l|]|]; try done. simpl. intros H.
  destruct (forallb_has_key _ _ H) as [xs Hxs]. eauto.
Qed.

(** A record that has all its fields projects to a value. *)
Lemma projection_complete_returns v :
  complete v = true -> exists out, projection v = Return out.
Proof.
  unfold complete, expected_fields. cbn [forallb].
  intros H.
  repeat match goal with
         | H : _ && _ = true |- _ => apply andb_prop in H as [? ?]
         | H : has_key _ _ = true |- _ =>
             apply has_key_field in H as [? H]
         | H : all_have _ _ = true |- _ =>
             apply all_have_field in H as (? & ? & ? & ?)
         end.
  eexists. eapply projection_complete; eauto.
Qed.


Lemma comprehension_incomplete raws w :
  forallb raw_issue raws = true -> forallb complete raws = false ->
  exists k, comprehension mcp_format raws w = (Raise (KeyError k), w).
Proof.
  induction raws as [|raw raws IH]; [done|]. simpl.
  intros [Hraw Hraws]%andb_prop Hc.
  destruct (complete raw) eqn:Hcomplete.
  - destruct (projection_complete_returns _ Hcomplete) as [out Hout].
    destruct (IH Hraws Hc) as [k Hk]. exists k.
    rewrite (bind_ret_l _ _ out w w) by by rewrite mcp_format_projection, Hout.
    by rewrite (bind_raise_l _ _ (KeyError k) w w).
  - destruct (projection_incomplete _ Hraw Hcomplete) as [k Hk]. exists k.
    rewrite (bind_raise_l _ _ (KeyError k) w w); [done|].
    by rewrite mcp_format_projection, Hk.
Qed.

Lemma projections_exist raws :
  Forall (fun raw => exists out, projection raw = Return out) raws ->
  exists outs, Forall2 (fun raw out => projection raw = Return out) raws outs.
Proof.
  induction raws as [|raw raws IH]; intros H; [by exists []|].
  apply Forall_cons in H as [[out Hout] Hraws].
  destruct (IH Hraws) as [outs Houts]. exists (out :: outs). by constructor.
Qed.

Section Reshaping.

Variable transport : nat -> Request -> Response.
Variable clock : nat -> Z.
Variable environ : gmap string string.
Variable default_headers : gmap string string.
Variable datetime : Type.
Variable isoformat : datetime -> string.

Local Abbreviation init := (__init__ environ default_headers).
Local Abbreviation get_one :=
  (mcp_get_issue transport clock environ default_headers).
Local Abbreviation get_all :=
  (mcp_list_issues transport clock environ default_headers datetime isoformat).

Lemma init_from_environment tok w :
  environ !! "GITHUB_TOKEN" = Some tok -> tok <> "" ->
  exists reader, init None w = (Return reader, w).
Proof.
  intros Henv Htok. unfold __init__, token_or_env. rewrite Henv.
  destruct tok; [done|]. simpl. eauto.
Qed.

Lemma fetch_answers fuel self method url params v w :
  answers transport w v ->
  exists w',
    bind (_make_request transport clock (S fuel) self method url params)
      response_json w = (Return v, w').
Proof.
  intros Hans.
  destruct (Hans (mkRequest method url params (session_headers self)))
    as [Hs Hd].
  eexists. rewrite (bind_ret_l _ _ _ _ _ (make_request_ok _ _ _ _ _ _ _ _ Hs)).
  unfold response_json. by rewrite Hd.
Qed.

Lemma mcp_get_issue_projection fuel owner repo issue_number tok v w :
  environ !! "GITHUB_TOKEN" = Some tok -> tok <> "" ->
  answers transport w v ->
  (get_one (S fuel) owner repo issue_number w).1 = projection v.
Proof.
  intros Henv Htok Hans. unfold mcp_get_issue.
  destruct (init_from_environment tok w Henv Htok) as [reader Hr].
  rewrite (bind_ret_l _ _ _ _ _ Hr). unfold get_issue.
  destruct (fetch_answers fuel reader "GET"
              (base_url reader +:+ "/repos/" +:+ owner +:+ "/" +:+ repo
               +:+ "/issues/" +:+ pretty issue_number) None v w Hans)
    as [w' Hw'].
  rewrite (bind_ret_l _ _ _ _ _ Hw'). by rewrite mcp_format_projection.
Qed.

Lemma mcp_list_issues_comprehension fuel owner repo state labels assignee
    per_page page tok raws w :
  environ !! "GITHUB_TOKEN" = Some tok -> tok <> "" ->
  answers transport w (JArr raws) ->
  exists w',
    get_all (S fuel) owner repo state labels assignee per_page page w =
    bind (comprehension mcp_format raws) (fun out => ret (JArr out)) w'.
Proof.
  intros Henv Htok Hans. unfold mcp_list_issues.
  destruct (init_from_environment tok w Henv Htok) as [reader Hr].
  rewrite (bind_ret_l _ _ _ _ _ Hr). unfold list_issues.
  match goal with
  | |- context [_make_request _ _ _ _ ?m ?u ?p] =>
      destruct (fetch_answers fuel reader m u p (JArr raws) w Hans) as [w' Hw']
  end.
  exists w'. rewrite (bind_ret_l _ _ _ _ _ Hw').
  by rewrite (bind_ret_l _ _ raws w' w').
Qed.

(** C8. For a raw record that has all expected fields, [mcp_get_issue] returns
    the simplified record: the scalar fields are the raw values themselves
    ([comments] under [comments_count], [html_url] under [url]), [labels]
    is the list of the raw labels' [name]s and [assignees] the list of the
    raw assignees' [login]s. *)
Theorem reshaping_fidelity fuel owner repo issue_number tok raw w
    title body state number created_at updated_at labels names assignees
    logins comments html_url :
  environ !! "GITHUB_TOKEN" = Some tok -> tok <> "" ->
  answers transport w raw ->
  field "title" raw = Some title -> field "body" raw = Some body ->
  field "state" raw = Some state -> field "number" raw = Some number ->
  field "created_at" raw = Some created_at ->
  field "updated_at" raw = Some updated_at ->
  field "labels" raw = Some (JArr labels) ->
  Forall2 (fun l x => field "name" l = Some x) labels names ->
  field "assignees" raw = Some (JArr assignees) ->
  Forall2 (fun a x => field "login" a = Some x) assignees logins ->
  field "comments" raw = Some comments ->
  field "html_url" raw = Some html_url ->
  (get_one (S fuel) owner repo issue_number w).1 =
    Return (JObj [("title", title); ("body", body); ("state", state);
                  ("number", number); ("created_at", created_at);
                  ("updated_at", updated_at); ("labels", JArr names);
                  ("assignees", JArr logins);
                  ("comments_count", comments); ("url", html_url)]).
Proof.
  intros Henv Htok Hans Ht Hb Hs Hn Hc Hu Hl Hnames Ha Hlogins Hco Hh.
  rewrite (mcp_get_issue_projection _ _ _ _ tok raw) by done.
  by eapply projection_complete.
Qed.

(** C9. A raw record that lacks an expected field makes [mcp_get_issue] raise
    a [KeyError] (the specification's SchemaError), and a list holding
    such a record makes [mcp_list_issues] raise one: no value is returned,
    so nothing is put in the place of the missing field. *)
Theorem missing_field_raises fuel owner repo issue_number state labels
    assignee per_page page tok w :
  environ !! "GITHUB_TOKEN" = Some tok -> tok <> "" ->
  (forall raw,
     answers transport w raw ->
     raw_issue raw = true -> complete raw = false ->
     exists k,
       (get_one (S fuel) owner repo issue_number w).1 = Raise (KeyError k)) /\
  (forall raws,
     answers transport w (JArr raws) ->
     forallb raw_issue raws = true -> forallb complete raws = false ->
     exists k,
       (get_all (S fuel) owner repo state labels assignee per_page page w).1
       = Raise (KeyError k)).
Proof.
  intros Henv Htok. split.
  - intros raw Hans Hraw Hc.
    rewrite (mcp_get_issue_projection _ _ _ _ tok raw) by done.
    by apply projection_incomplete.
  - intros raws Hans Hraw Hc.
    destruct (mcp_list_issues_comprehension fuel owner repo state labels
                assignee per_page page tok raws w Henv Htok Hans) as [w' Hw'].
    destruct (comprehension_incomplete raws w' Hraw Hc) as [k Hk].
    exists k. by rewrite Hw', (bind_raise_l _ _ (KeyError k) w' w').
Qed.


End Reshaping.

(** * Instances *)


Lemma answers_mock (v : JSON) : answers (Mock.script [] (Mock.ok v)) Mock.w0 v.
Proof. intros req. split; reflexivity. Qed.




Lemma credential_required_witness :
  (exists msg, __init__ ∅ ∅ None Mock.w0 = (Raise (ValueError msg), Mock.w0)) /\
  (exists reader, __init__ ∅ ∅ (Some "secret") Mock.w0 = (Return reader, Mock.w0)
                  /\ token reader = "secret") /\
  (exists reader, __init__ Mock.environ ∅ (Some "") Mock.w0
                  = (Return reader, Mock.w0) /\ token reader = "secret").
Proof.
  split; [|split].
  - destruct (credential_required ∅ ∅ None Mock.w0) as (H & _ & _).
    apply H; left; [reflexivity | apply lookup_empty].
  - destruct (credential_required ∅ ∅ (Some "secret") Mock.w0) as (_ & H & _).
    by apply H.
  - destruct (credential_required Mock.environ ∅ (Some "") Mock.w0)
      as (_ & _ & H).
    apply H; [by right | reflexivity | done].
Defined.

Lemma optional_filters_omitted_witness :
  exists ps,
    transmits
      (list_issues (Mock.script [] (Mock.ok (JArr []))) Mock.clock unit
         (fun _ => "") 1 Mock.reader "o" "r" "open" None (Some "alice") None
         (Some "") None 30 1) Mock.w0 ps /\
    ps !! "assignee" = Some (QStr "alice") /\
    ps !! "creator" = None /\
    ps !! "mentioned" = None.
Proof.
  destruct (optional_filters_omitted (Mock.script [] (Mock.ok (JArr [])))
              Mock.clock unit (fun _ => "") 0 Mock.reader "o" "r" "open" None
              (Some "alice") None (Some "") None 30 1 Mock.w0)
    as (ps & Hps & [_ Ha] & [Hc _] & [Hm _]).
  exists ps. split; [exact Hps|]. split; [|split].
  - by apply Ha.
  - apply Hc. by left.
  - apply Hm. by right.
Defined.


Lemma reshaping_fidelity_witness :
  (mcp_get_issue (Mock.script [] (Mock.ok Mock.issue)) Mock.clock Mock.environ ∅
     1 "o" "r" 7 Mock.w0).1 = Return Mock.simplified.
Proof.
  apply (reshaping_fidelity (Mock.script [] (Mock.ok Mock.issue)) Mock.clock
           Mock.environ ∅ 0 "o" "r" 7 "secret" Mock.issue Mock.w0
           (JStr "Crash on start") (JStr "It crashes.") (JStr "open") (JNum 7)
           (JStr "2024-01-01T00:00:00Z") (JStr "2024-01-02T00:00:00Z")
           [JObj [("name", JStr "bug")]] [JStr "bug"]
           [JObj [("login", JStr "alice")]] [JStr "alice"]
           (JNum 3) (JStr "https://github.com/o/r/issues/7"));
    try reflexivity.
  - done.
  - apply answers_mock.
  - by repeat constructor.
  - by repeat constructor.
Defined.

Lemma missing_field_raises_witness :
  (exists k,
     (mcp_get_issue (Mock.script [] (Mock.ok (JObj Mock.partial_issue)))
        Mock.clock Mock.environ ∅ 1 "o" "r" 7 Mock.w0).1 = Raise (KeyError k)) /\
  (exists k,
     (mcp_list_issues
        (Mock.script [] (Mock.ok (JArr [Mock.issue; JObj Mock.partial_issue])))
        Mock.clock Mock.environ ∅ unit (fun _ => "") 1 "o" "r" "open" None None
        30 1 Mock.w0).1 = Raise (KeyError k)).
Proof.
  split.
  - destruct (missing_field_raises
                (Mock.script [] (Mock.ok (JObj Mock.partial_issue))) Mock.clock
                Mock.environ ∅ unit (fun _ => "") 0 "o" "r" 7 "open" None None
                30 1 "secret" Mock.w0) as [H _]; [reflexivity|done|].
    apply (H (JObj Mock.partial_issue)); [apply answers_mock|reflexivity..].
  - destruct (missing_field_raises
                (Mock.script []
                   (Mock.ok (JArr [Mock.issue; JObj Mock.partial_issue])))
                Mock.clock Mock.environ ∅ unit (fun _ => "") 0 "o" "r" 7 "open"
                None None 30 1 "secret" Mock.w0) as [_ H]; [reflexivity|done|].
    apply (H [Mock.issue; JObj Mock.partial_issue]);
      [apply answers_mock|reflexivity..].
Defined.


(** * Further properties of the request loop *)

Section RequestLoopFacts.

Variable transport : nat -> Request -> Response.
Variable clock : nat -> Z.

Local Abbreviation handle := (_handle_rate_limit clock).
Local Abbreviation request := (_make_request transport clock).

(** What one call of the handler may do: end normally or with the
    [KeyError] / [ValueError] of a header access, leave the requests alone,
    and sleep at most once, for a duration in (0, 3600]. *)
Lemma handle_effect r w :
  ((handle r w).1 = Return tt \/
   (exists k, (handle r w).1 = Raise (KeyError k)) \/
   (exists msg, (handle r w).1 = Raise (ValueError msg))) /\
  sent (handle r w).2 = sent w /\
  exists ds, slept (handle r w).2 = slept w ++ ds /\
             Forall (fun d => 0 < d <= 3600) ds /\ (length ds <= 1)%nat.
Proof.
  split; [|split; [apply handle_sent|]].
  - unfold _handle_rate_limit, int_header, bind, of_option, ret, raise,
      time_time, time_sleep.
    repeat (case_match; simplify_eq; simpl; eauto).
  - unfold _handle_rate_limit, int_header, bind, of_option, ret, raise,
      time_time, time_sleep.
    repeat (case_match; simplify_eq; simpl;
            try (exists []; rewrite app_nil_r; split; [done|split; [constructor|simpl; lia]])).
    eexists [_]. split; [done|]. split; [|simpl; lia].
    constructor; [lia|constructor].
Qed.

(** X1. A response with a status from 400 to 599 other than 403 ends the
    call at once: [_make_request] raises the [HTTPError] that carries this
    very response, after exactly one request, without reading the clock and
    without sleeping. *)
Theorem http_error_raised_at_once fuel self method url params w :
  let req := mkRequest method url params (session_headers self) in
  let r := transport (length (sent w)) req in
  let m := request (S fuel) self method url params in
  400 <= status_code r < 600 -> status_code r <> 403 ->
  (m w).1 = Raise (HTTPError r) /\
  transmitted m w = [req] /\
  sleeps m w = [] /\
  clock_reads (m w).2 = clock_reads w.
Proof.
  intros req r m Hs H403. subst m.
  rewrite (make_request_http_error transport clock fuel self method url params w Hs H403).
  fold req. split; [done|]. split; [|split; [|done]].
  - apply transmitted_app.
    by rewrite (make_request_http_error transport clock fuel self method url
                  params w Hs H403).
  - apply sleeps_app.
    rewrite (make_request_http_error transport clock fuel self method url
               params w Hs H403). simpl. by rewrite app_nil_r.
Qed.

(** X2. A response whose status is neither 200 nor 403 nor in 400..599
    (a 204 or a 304, say) is not an error for [raise_for_status]: the loop
    goes round again and sends the same request once more, without
    sleeping. *)
Theorem other_status_retried fuel self method url params w :
  let req := mkRequest method url params (session_headers self) in
  let r := transport (length (sent w)) req in
  status_code r <> 200 -> ~ (400 <= status_code r < 600) ->
  _make_request transport clock (S fuel) self method url params w =
    _make_request transport clock fuel self method url params
      (mkWorld (sent w ++ [req]) (clock_reads w) (slept w)).
Proof.
  intros req r H200 Herr. simpl. unfold bind at 1, session_request.
  fold req. fold r.
  rewrite (proj2 (Z.eqb_neq _ _)) by done.
  rewrite (proj2 (Z.eqb_neq _ _)) by lia.
  unfold bind at 1, raise_for_status.
  destruct (400 <=? status_code r) eqn:E1; destruct (status_code r <? 600) eqn:E2;
    simpl; try done. lia.
Qed.



(** The loop's invariant: requests are only appended, all equal to the one
    request of the call; sleeps are only appended, each in (0, 3600], and
    never more of them than requests. *)
Lemma make_request_invariant fuel : forall self method url params w o w',
  let req := mkRequest method url params (session_headers self) in
  request fuel self method url params w = (o, w') ->
  exists k ds,
    sent w' = sent w ++ repeat req k /\
    slept w' = slept w ++ ds /\
    Forall (fun d => 0 < d <= 3600) ds /\ (length ds <= k)%nat.
Proof.
  induction fuel as [|fuel IH]; intros self method url params w o w' req H.
  { exists 0%nat, []. simpl in H. injection H as _ <-. by rewrite !app_nil_r. }
  simpl in H. unfold bind at 1, session_request in H. fold req in H.
  set (r := transport (length (sent w)) req) in H.
  set (w1 := mkWorld (sent w ++ [req]) (clock_reads w) (slept w)) in H.
  assert (Hstop : forall w2 ds,
    sent w2 = sent w1 -> slept w2 = slept w1 ++ ds ->
    Forall (fun d => 0 < d <= 3600) ds -> (length ds <= 1)%nat ->
    exists k ds',
      sent w2 = sent w ++ repeat req k /\
      slept w2 = slept w ++ ds' /\
      Forall (fun d => 0 < d <= 3600) ds' /\ (length ds' <= k)%nat).
  { intros w2 ds Hsent Hslept Hds Hlen. exists 1%nat, ds.
    by rewrite Hsent, Hslept. }
  assert (Hmore : forall w2 ds,
    sent w2 = sent w1 -> slept w2 = slept w1 ++ ds ->
    Forall (fun d => 0 < d <= 3600) ds -> (length ds <= 1)%nat ->
    request fuel self method url params w2 = (o, w') ->
    exists k ds',
      sent w' = sent w ++ repeat req k /\
      slept w' = slept w ++ ds' /\
      Forall (fun d => 0 < d <= 3600) ds' /\ (length ds' <= k)%nat).
  { intros w2 ds Hsent Hslept Hds Hlen Hrun.
    destruct (IH self method url params w2 o w' Hrun)
      as (k & ds' & Hk & Hd & Hb & Hl).
    fold req in Hk. exists (S k), (ds ++ ds').
    rewrite Hk, Hd, Hsent, Hslept. simpl. rewrite <- !app_assoc.
    split; [done|]. split; [done|]. split; [by apply Forall_app|].
    rewrite length_app. lia. }
  destruct (status_code r =? 200).
  { injection H as _ <-.
    apply (Hstop w1 []); [done|by rewrite app_nil_r|constructor|simpl; lia]. }
  destruct (status_code r =? 403).
  - unfold bind in H.
    destruct (handle_effect r w1) as (_ & Hsent & ds & Hslept & Hds & Hlen).
    destruct (handle r w1) as [[[]|e|] w2]; simpl in Hsent, Hslept.
    + by apply (Hmore w2 ds).
    + injection H as _ <-. by apply (Hstop w2 ds).
    + injection H as _ <-. by apply (Hstop w2 ds).
  - unfold bind in H. pose proof (raise_for_status_world r w1) as Hw.
    destruct (raise_for_status r w1) as [[[]|e|] w2]; simpl in Hw; subst w2.
    + apply (Hmore w1 []); [done|by rewrite app_nil_r|constructor|simpl; lia|done].
    + injection H as _ <-.
      apply (Hstop w1 []); [done|by rewrite app_nil_r|constructor|simpl; lia].
    + injection H as _ <-.
      apply (Hstop w1 []); [done|by rewrite app_nil_r|constructor|simpl; lia].
Qed.

(** X5. Whatever the transport answers and however long the loop runs,
    every sleep of [_make_request] lasts more than 0 and at most 3600
    seconds, it sleeps at most once per request sent, and all the requests it
    sends are the same one. *)
Theorem sleeps_bounded fuel self method url params w :
  let req := mkRequest method url params (session_headers self) in
  let m := request fuel self method url params in
  Forall (fun d => 0 < d <= 3600) (sleeps m w) /\
  (length (sleeps m w) <= length (transmitted m w))%nat /\
  Forall (fun r => r = req) (transmitted m w).
Proof.
  intros req m.
  destruct (m w) as [o w'] eqn:Hrun.
  destruct (make_request_invariant fuel self method url params w o w' Hrun)
    as (k & ds & Hk & Hd & Hb & Hl).
  fold req in Hk.
  assert (Hk' : sent (m w).2 = sent w ++ repeat req k) by by rewrite Hrun.
  assert (Hd' : slept (m w).2 = slept w ++ ds) by by rewrite Hrun.
  clear Hk Hd. rename Hk' into Hk. rename Hd' into Hd.
  rewrite (sleeps_app m w ds Hd), (transmitted_app m w _ Hk).
  rewrite repeat_length. split; [done|]. split; [done|].
  apply Forall_forall. intros x Hx. apply list_elem_of_In in Hx.
  by apply repeat_spec in Hx.
Qed.

(** X6. What a call of [_make_request] can end with: a returned response
    always has status 200 and is an answer of the transport to the call's
    request; a raised [HTTPError] always carries such an answer with a
    status in 400..599 other than 403; [TypeError] and [JSONDecodeError] are
    never raised. *)
Theorem make_request_outcome fuel : forall self method url params w,
  let req := mkRequest method url params (session_headers self) in
  match (_make_request transport clock fuel self method url params w).1 with
  | Return r => status_code r = 200 /\ exists k, r = transport k req
  | Raise (HTTPError r) =>
      (400 <= status_code r < 600 /\ status_code r <> 403) /\
      exists k, r = transport k req
  | Raise TypeError | Raise JSONDecodeError => False
  | _ => True
  end.
Proof.
  induction fuel as [|fuel IH]; intros self method url params w req; [done|].
  simpl. unfold bind at 1, session_request. fold req.
  set (r := transport (length (sent w)) req).
  set (w1 := mkWorld (sent w ++ [req]) (clock_reads w) (slept w)).
  destruct (status_code r =? 200) eqn:E200.
  { simpl. split; [by apply Z.eqb_eq|by eexists]. }
  destruct (status_code r =? 403) eqn:E403.
  - unfold bind. destruct (handle_effect r w1) as (Ho & _).
    destruct (handle r w1) as [[[]|e|] w2]; simpl in Ho |- *.
    + apply IH.
    + by destruct Ho as [Ho | [[k Ho] | [msg Ho]]]; simplify_eq.
    + done.
  - unfold bind, raise_for_status.
    destruct ((400 <=? status_code r) && (status_code r <? 600)) eqn:Erange;
      simpl.
    + apply andb_prop in Erange as [H1 H2].
      apply Z.leb_le in H1. apply Z.ltb_lt in H2. apply Z.eqb_neq in E403.
      split; [done|by eexists].
    + apply IH.
Qed.




End RequestLoopFacts.

(** * Further properties of the client and its fetchers *)

Lemma bind_pure_world {A B : Type} (m : M A) (k : A -> M B) (w : World) :
  (forall a, is_pure (k a)) -> (bind m k w).2 = (m w).2.
Proof.
  intros Hk. unfold bind. destruct (m w) as [[a|e|] w']; [|done|done].
  destruct (Hk a) as [o Ho]. by rewrite Ho.
Qed.

Lemma is_pure_response_json r : is_pure (response_json r).
Proof. apply is_pure_of_option. Qed.

Section ClientFacts.

Variable transport : nat -> Request -> Response.
Variable clock : nat -> Z.
Variable environ : gmap string string.
Variable default_headers : gmap string string.
Variable datetime : Type.
Variable isoformat : datetime -> string.

Local Abbreviation init := (__init__ environ default_headers).
Local Abbreviation request := (_make_request transport clock).
Local Abbreviation one_issue := (get_issue transport clock).
Local Abbreviation issues := (list_issues transport clock datetime isoformat).
Local Abbreviation comments := (get_issue_comments transport clock).
Local Abbreviation issues_params := (list_issues_params datetime isoformat).
Local Abbreviation get_one :=
  (mcp_get_issue transport clock environ default_headers).
Local Abbreviation get_all :=
  (mcp_list_issues transport clock environ default_headers datetime isoformat).

(** X8. A client that [__init__] builds has a non-empty token, the fixed
    base URL, and session headers whose [Authorization] is "token " followed
    by the credential, whose [Accept] and [User-Agent] are the module's
    constants, looked up in any letter case; the session's other default
    headers are kept; nothing is sent. *)
Theorem init_session credential reader w w' :
  init credential w = (Return reader, w') ->
  w' = w /\ token reader <> "" /\
  base_url reader = "https://api.github.com" /\
  CaseInsensitiveDict.get "Authorization" (session_headers reader)
    = Some ("token " +:+ token reader) /\
  CaseInsensitiveDict.get "Accept" (session_headers reader)
    = Some "application/vnd.github.v3+json" /\
  CaseInsensitiveDict.get "User-Agent" (session_headers reader)
    = Some "Claude-MCP-GitHub-Integration" /\
  (forall k, Py.lower k <> "authorization" -> Py.lower k <> "accept" ->
     Py.lower k <> "user-agent" ->
     CaseInsensitiveDict.get k (session_headers reader)
     = default_headers !! Py.lower k).
Proof.
  unfold __init__. destruct (token_or_env environ credential) as [tok|];
    [|done].
  destruct tok as [|c tok]; [done|]. simpl. intros [= <- <-]. simpl.
  unfold CaseInsensitiveDict.update, CaseInsensitiveDict.set,
    CaseInsensitiveDict.get. simpl fold_left. unfold CaseInsensitiveDict.t.
  change (Py.lower "Authorization") with "authorization".
  change (Py.lower "Accept") with "accept".
  change (Py.lower "User-Agent") with "user-agent".
  split; [done|]. split; [done|]. split; [done|]. split; [|split; [|split]].
  - rewrite !lookup_insert_ne by done. by rewrite lookup_insert_eq.
  - rewrite lookup_insert_ne by done. by rewrite lookup_insert_eq.
  - by rewrite lookup_insert_eq.
  - intros k H1 H2 H3. by rewrite !lookup_insert_ne by done.
Qed.

(** *** Helpers: the client built from the environment, one fetch *)

Lemma init_env tok w :
  environ !! "GITHUB_TOKEN" = Some tok -> tok <> "" ->
  init None w =
    (Return (mkReader tok "https://api.github.com"
               (CaseInsensitiveDict.update
                  [("Authorization", "token " +:+ tok);
                   ("Accept", "application/vnd.github.v3+json");
                   ("User-Agent", "Claude-MCP-GitHub-Integration")]
                  default_headers)), w).
Proof.
  intros Henv Htok. unfold __init__, token_or_env. rewrite Henv.
  by destruct tok.
Qed.

Lemma authorization_header tok :
  CaseInsensitiveDict.get "Authorization"
    (CaseInsensitiveDict.update
       [("Authorization", "token " +:+ tok);
        ("Accept", "application/vnd.github.v3+json");
        ("User-Agent", "Claude-MCP-GitHub-Integration")]
       default_headers) = Some ("token " +:+ tok).
Proof.
  unfold CaseInsensitiveDict.update, CaseInsensitiveDict.set,
    CaseInsensitiveDict.get. simpl fold_left. unfold CaseInsensitiveDict.t.
  change (Py.lower "Authorization") with "authorization".
  change (Py.lower "Accept") with "accept".
  change (Py.lower "User-Agent") with "user-agent".
  rewrite !lookup_insert_ne by done. by rewrite lookup_insert_eq.
Qed.

Lemma transmitted_ext {A B : Type} (m : M A) (m' : M B) (w : World) :
  (m w).2 = (m' w).2 -> transmitted m w = transmitted m' w.
Proof. intros H. unfold transmitted. by rewrite H. Qed.

Lemma fetch_sent fuel self method url params w :
  exists k,
    transmitted
      (bind (request (S fuel) self method url params) response_json) w
    = repeat (mkRequest method url params (session_headers self)) (S k).
Proof.
  destruct (make_request_sent transport clock (S fuel) self method url params w)
    as (k & Hk & Hsent).
  destruct k as [|k]; [by destruct Hk|]. exists k.
  apply transmitted_app. rewrite bind_pure_world; [done|].
  apply is_pure_response_json.
Qed.

Lemma fetch_ok fuel self method url params v w :
  answers transport w v ->
  bind (request (S fuel) self method url params) response_json w =
    (Return v,
     mkWorld (sent w ++ [mkRequest method url params (session_headers self)])
       (clock_reads w) (slept w)).
Proof.
  intros Hans.
  destruct (Hans (mkRequest method url params (session_headers self)))
    as [Hs Hd].
  rewrite (bind_ret_l _ _ _ _ _
             (make_request_ok transport clock fuel self method url params w Hs)).
  unfold response_json. by rewrite Hd.
Qed.

Lemma fetch_error fuel self method url params w :
  let r := transport (length (sent w))
             (mkRequest method url params (session_headers self)) in
  400 <= status_code r < 600 -> status_code r <> 403 ->
  bind (request (S fuel) self method url params) response_json w =
    (Raise (HTTPError r),
     mkWorld (sent w ++ [mkRequest method url params (session_headers self)])
       (clock_reads w) (slept w)).
Proof.
  intros r Hs H403.
  by rewrite (bind_raise_l _ _ _ _ _
                (make_request_http_error transport clock fuel self method url
                   params w Hs H403)).
Qed.

(** X9. With [GITHUB_TOKEN] set, every request [mcp_get_issue] sends (there
    is at least one) is a GET of
    https://api.github.com/repos/{owner}/{repo}/issues/{issue_number} without
    query parameters, carrying the header [Authorization: token <credential>]. *)
Theorem mcp_get_issue_request fuel owner repo issue_number tok w :
  environ !! "GITHUB_TOKEN" = Some tok -> tok <> "" ->
  exists k req,
    transmitted (get_one (S fuel) owner repo issue_number) w = repeat req (S k) /\
    method req = "GET" /\
    url req = "https://api.github.com" +:+ "/repos/" +:+ owner +:+ "/" +:+ repo
              +:+ "/issues/" +:+ pretty issue_number /\
    params req = None /\
    CaseInsensitiveDict.get "Authorization" (request_headers req)
      = Some ("token " +:+ tok).
Proof.
  intros Henv Htok.
  set (reader := mkReader tok "https://api.github.com"
                   (CaseInsensitiveDict.update
                      [("Authorization", "token " +:+ tok);
                       ("Accept", "application/vnd.github.v3+json");
                       ("User-Agent", "Claude-MCP-GitHub-Integration")]
                      default_headers)).
  destruct (fetch_sent fuel reader "GET"
              (base_url reader +:+ "/repos/" +:+ owner +:+ "/" +:+ repo
               +:+ "/issues/" +:+ pretty issue_number) None w) as [k Hk].
  eexists k, _. split; [|split; [|split; [|split]]].
  - rewrite <- Hk. apply transmitted_ext.
    unfold mcp_get_issue. rewrite (bind_ret_l _ _ _ _ _ (init_env tok w Henv Htok)).
    fold reader. rewrite bind_pure_world; [done|]. apply is_pure_mcp_format.
  - done.
  - done.
  - done.
  - apply authorization_header.
Qed.

(** X10. When the first answer is a 200, each fetcher returns the decoded
    body as it is, after exactly one request, without reading the clock and
    without sleeping. *)
Theorem fetchers_pass_through fuel self owner repo issue_number state labels
    assignee creator mentioned since per_page page v w :
  answers transport w v ->
  let m1 := one_issue (S fuel) self owner repo issue_number in
  let m2 := issues (S fuel) self owner repo state labels assignee creator
              mentioned since per_page page in
  let m3 := comments (S fuel) self owner repo issue_number per_page page in
  ((m1 w).1 = Return v /\ length (transmitted m1 w) = 1%nat /\
   sleeps m1 w = [] /\ clock_reads (m1 w).2 = clock_reads w) /\
  ((m2 w).1 = Return v /\ length (transmitted m2 w) = 1%nat /\
   sleeps m2 w = [] /\ clock_reads (m2 w).2 = clock_reads w) /\
  ((m3 w).1 = Return v /\ length (transmitted m3 w) = 1%nat /\
   sleeps m3 w = [] /\ clock_reads (m3 w).2 = clock_reads w).
Proof.
  intros Hans m1 m2 m3.
  assert (Hgen : forall (m : M JSON) req,
    m w = (Return v, mkWorld (sent w ++ [req]) (clock_reads w) (slept w)) ->
    (m w).1 = Return v /\ length (transmitted m w) = 1%nat /\
    sleeps m w = [] /\ clock_reads (m w).2 = clock_reads w).
  { intros m req Hm. split; [by rewrite Hm|]. split; [|split].
    - rewrite (transmitted_app m w [req]); [done|by rewrite Hm].
    - apply sleeps_app. rewrite Hm. simpl. by rewrite app_nil_r.
    - by rewrite Hm. }
  split; [|split]; eapply Hgen; by apply fetch_ok.
Qed.

(** X11. When the first answer has a status in 400..599 other than 403 (a
    404 for an unknown issue, say), every fetcher and, with [GITHUB_TOKEN]
    set, both MCP functions raise the [HTTPError] carrying a response of
    that status; nothing is caught on the way up. *)
Theorem http_error_propagates fuel self owner repo issue_number state labels
    assignee creator mentioned since per_page page tok w :
  (forall req,
     400 <= status_code (transport (length (sent w)) req) < 600 /\
     status_code (transport (length (sent w)) req) <> 403) ->
  environ !! "GITHUB_TOKEN" = Some tok -> tok <> "" ->
  let failed (o : Outcome JSON) :=
    exists r, o = Raise (HTTPError r) /\
              400 <= status_code r < 600 /\ status_code r <> 403 in
  failed (one_issue (S fuel) self owner repo issue_number w).1 /\
  failed (issues (S fuel) self owner repo state labels assignee creator
            mentioned since per_page page w).1 /\
  failed (comments (S fuel) self owner repo issue_number per_page page w).1 /\
  failed (get_one (S fuel) owner repo issue_number w).1 /\
  failed (get_all (S fuel) owner repo state labels assignee per_page page w).1.
Proof.
  intros Hfail Henv Htok failed.
  assert (Hgen : forall self method url params,
    failed (bind (request (S fuel) self method url params) response_json w).1).
  { intros self' method url params.
    destruct (Hfail (mkRequest method url params (session_headers self')))
      as [Hs H403].
    rewrite (fetch_error fuel self' method url params w Hs H403).
    eexists. split; [reflexivity|done]. }
  split; [apply Hgen|]. split; [apply Hgen|]. split; [apply Hgen|].
  split.
  - unfold mcp_get_issue.
    rewrite (bind_ret_l _ _ _ _ _ (init_env tok w Henv Htok)).
    unfold get_issue.
    match goal with
    | |- context [_make_request _ _ _ ?s ?m ?u ?p] =>
        destruct (Hfail (mkRequest m u p (session_headers s))) as [Hs H403];
        rewrite (bind_raise_l _ _ _ _ _ (fetch_error fuel s m u p w Hs H403))
    end.
    eexists. split; [reflexivity|done].
  - unfold mcp_list_issues.
    rewrite (bind_ret_l _ _ _ _ _ (init_env tok w Henv Htok)).
    unfold list_issues.
    match goal with
    | |- context [_make_request _ _ _ ?s ?m ?u ?p] =>
        destruct (Hfail (mkRequest m u p (session_headers s))) as [Hs H403];
        rewrite (bind_raise_l _ _ _ _ _ (fetch_error fuel s m u p w Hs H403))
    end.
    eexists. split; [reflexivity|done].
Qed.

(** X12. Without a non-empty [GITHUB_TOKEN] in the environment both MCP
    functions raise the constructor's [ValueError] before anything is sent:
    the world is untouched. *)
Theorem mcp_requires_environment_token fuel owner repo issue_number state
    labels assignee per_page page w :
  absent (environ !! "GITHUB_TOKEN") ->
  get_one fuel owner repo issue_number w =
    (Raise (ValueError "GitHub token is required. Provide it directly or set GITHUB_TOKEN environment variable."), w) /\
  get_all fuel owner repo state labels assignee per_page page w =
    (Raise (ValueError "GitHub token is required. Provide it directly or set GITHUB_TOKEN environment variable."), w).
Proof.
  intros Habs.
  assert (Hinit : init None w =
    (Raise (ValueError "GitHub token is required. Provide it directly or set GITHUB_TOKEN environment variable."), w)).
  { unfold __init__, token_or_env. by destruct Habs as [-> | ->]. }
  split.
  - unfold mcp_get_issue. by rewrite (bind_raise_l _ _ _ _ _ Hinit).
  - unfold mcp_list_issues. by rewrite (bind_raise_l _ _ _ _ _ Hinit).
Qed.

(** X20. The endpoints: every request a fetcher sends (there is at least
    one) is a GET with the session's headers, to
    {base_url}/repos/{owner}/{repo}/issues/{issue_number} without query
    parameters for [get_issue], to {base_url}/repos/{owner}/{repo}/issues
    for [list_issues], and to
    {base_url}/repos/{owner}/{repo}/issues/{issue_number}/comments for
    [get_issue_comments], the last two with their query mapping. *)
Theorem fetcher_endpoints fuel self owner repo issue_number state labels
    assignee creator mentioned since per_page page w :
  exists k1 k2 k3,
    transmitted (one_issue (S fuel) self owner repo issue_number) w =
      repeat (mkRequest "GET"
                (base_url self +:+ "/repos/" +:+ owner +:+ "/" +:+ repo
                 +:+ "/issues/" +:+ pretty issue_number)
                None (session_headers self)) (S k1) /\
    transmitted
      (issues (S fuel) self owner repo state labels assignee creator mentioned
         since per_page page) w =
      repeat (mkRequest "GET"
                (base_url self +:+ "/repos/" +:+ owner +:+ "/" +:+ repo
                 +:+ "/issues")
                (Some (issues_params state labels assignee creator mentioned
                         since per_page page))
                (session_headers self)) (S k2) /\
    transmitted (comments (S fuel) self owner repo issue_number per_page page) w =
      repeat (mkRequest "GET"
                (base_url self +:+ "/repos/" +:+ owner +:+ "/" +:+ repo
                 +:+ "/issues/" +:+ pretty issue_number +:+ "/comments")
                (Some (get_issue_comments_params per_page page))
                (session_headers self)) (S k3).
Proof.
  destruct (fetch_sent fuel self "GET"
              (base_url self +:+ "/repos/" +:+ owner +:+ "/" +:+ repo
               +:+ "/issues/" +:+ pretty issue_number) None w) as [k1 H1].
  destruct (fetch_sent fuel self "GET"
              (base_url self +:+ "/repos/" +:+ owner +:+ "/" +:+ repo
               +:+ "/issues")
              (Some (issues_params state labels assignee creator mentioned
                       since per_page page)) w) as [k2 H2].
  destruct (fetch_sent fuel self "GET"
              (base_url self +:+ "/repos/" +:+ owner +:+ "/" +:+ repo
               +:+ "/issues/" +:+ pretty issue_number +:+ "/comments")
              (Some (get_issue_comments_params per_page page)) w) as [k3 H3].
  exists k1, k2, k3. split; [exact H1|]. split; [exact H2|exact H3].
Qed.

(** *** The query mappings *)

Lemma is_Some_set_if k k' x (ps : gmap string QVal) :
  is_Some (set_if k' x ps !! k) -> k = k' \/ is_Some (ps !! k).
Proof.
  unfold set_if. destruct x as [s|]; [|by right].
  destruct (Py.truthy_str s); [|by right].
  rewrite lookup_insert_is_Some. intros [<- | [_ H]]; [by left|by right].
Qed.

Lemma is_Some_set_labels k labels (ps : gmap string QVal) :
  is_Some (set_labels labels ps !! k) -> k = "labels" \/ is_Some (ps !! k).
Proof.
  unfold set_labels. destruct labels as [l|]; [|by right].
  destruct (Py.truthy_list l); [|by right].
  rewrite lookup_insert_is_Some. intros [<- | [_ H]]; [by left|by right].
Qed.

Lemma is_Some_set_since k since (ps : gmap string QVal) :
  is_Some (set_since datetime isoformat since ps !! k) ->
  k = "since" \/ is_Some (ps !! k).
Proof.
  unfold set_since. destruct since as [[s|d]|]; [| |by right].
  - apply is_Some_set_if.
  - rewrite lookup_insert_is_Some. intros [<- | [_ H]]; [by left|by right].
Qed.

(** X13. [state] and [page] go out exactly as given, with no check of
    their values: [list_issues] sends [state] and [page], and
    [get_issue_comments] sends [page] and no [state]. *)
Theorem state_and_page_verbatim fuel self owner repo state labels assignee
    creator mentioned since issue_number per_page page w :
  exists ps qs,
    transmits
      (issues (S fuel) self owner repo state labels assignee creator mentioned
         since per_page page) w ps /\
    transmits (comments (S fuel) self owner repo issue_number per_page page)
      w qs /\
    ps !! "state" = Some (QStr state) /\ ps !! "page" = Some (QInt page) /\
    qs !! "page" = Some (QInt page) /\ qs !! "state" = None.
Proof.
  eexists _, _.
  split; [apply list_issues_transmits|].
  split; [apply get_issue_comments_transmits|].
  unfold list_issues_params, get_issue_comments_params.
  rewrite !lookup_set_since_ne, !lookup_set_if_ne, !lookup_set_labels_ne by done.
  split; [|split; [|split]].
  - rewrite !lookup_insert_ne by done. by rewrite lookup_insert_eq.
  - by rewrite lookup_insert_eq.
  - by rewrite lookup_insert_eq.
  - by rewrite !lookup_insert_ne.
Qed.

(** X14. The [since] filter: absent or an empty string, no [since] key is
    sent; a non-empty string is sent unchanged; a [datetime] is sent as its
    [isoformat()]. *)
Theorem since_normalised fuel self owner repo state labels assignee creator
    mentioned since per_page page w :
  exists ps,
    transmits
      (issues (S fuel) self owner repo state labels assignee creator mentioned
         since per_page page) w ps /\
    (since = None \/ since = Some (SinceStr "") -> ps !! "since" = None) /\
    (forall s, since = Some (SinceStr s) -> s <> "" ->
       ps !! "since" = Some (QStr s)) /\
    (forall d, since = Some (SinceDatetime d) ->
       ps !! "since" = Some (QStr (isoformat d))).
Proof.
  eexists. split; [apply list_issues_transmits|].
  unfold list_issues_params.
  set (inner := set_if "mentioned" mentioned _).
  assert (Hinner : inner !! "since" = None).
  { subst inner. rewrite !lookup_set_if_ne, lookup_set_labels_ne by done.
    by apply lookup_base. }
  unfold set_since. split; [|split].
  - by intros [-> | ->].
  - intros s -> Hs. by apply lookup_set_if.
  - intros d ->. by rewrite lookup_insert_eq.
Qed.

(** X15. No other key is ever sent: the query mapping of [list_issues] has
    keys among [state], [per_page], [page], [labels], [assignee], [creator],
    [mentioned] and [since], that of [get_issue_comments] among [per_page]
    and [page]; and [labels] is left out when no list or an empty list is
    given. *)
Theorem query_keys fuel self owner repo state labels assignee creator
    mentioned since issue_number per_page page w :
  exists ps qs,
    transmits
      (issues (S fuel) self owner repo state labels assignee creator mentioned
         since per_page page) w ps /\
    transmits (comments (S fuel) self owner repo issue_number per_page page)
      w qs /\
    (forall k, is_Some (ps !! k) ->
       k ∈ ["state"; "per_page"; "page"; "labels"; "assignee"; "creator";
            "mentioned"; "since"]) /\
    (forall k, is_Some (qs !! k) -> k ∈ ["per_page"; "page"]) /\
    (labels = None \/ labels = Some [] -> ps !! "labels" = None).
Proof.
  eexists _, _.
  split; [apply list_issues_transmits|].
  split; [apply get_issue_comments_transmits|].
  split; [|split].
  - intros k. unfold list_issues_params. intros H.
    apply is_Some_set_since in H as [-> | H]; [set_solver|].
    apply is_Some_set_if in H as [-> | H]; [set_solver|].
    apply is_Some_set_if in H as [-> | H]; [set_solver|].
    apply is_Some_set_if in H as [-> | H]; [set_solver|].
    apply is_Some_set_labels in H as [-> | H]; [set_solver|].
    rewrite !lookup_insert_is_Some, lookup_empty in H.
    destruct H as [<- | [_ [<- | [_ [<- | [_ [? H]]]]]]]; set_solver.
  - intros k. unfold get_issue_comments_params. intros H.
    rewrite !lookup_insert_is_Some, lookup_empty in H.
    destruct H as [<- | [_ [<- | [_ [? H]]]]]; set_solver.
  - intros Hl. unfold list_issues_params.
    rewrite lookup_set_since_ne, !lookup_set_if_ne by done.
    destruct Hl as [-> | ->]; simpl; by apply lookup_base.
Qed.

(** X16. [mcp_list_issues] passes on [state], [labels], [assignee],
    [per_page] and [page] only: with [GITHUB_TOKEN] set, the query mapping it
    sends is the one [list_issues] builds without [creator], [mentioned] and
    [since], so none of these three keys is ever sent, and [per_page] is
    clamped to 100 all the same. *)
Theorem mcp_list_issues_query fuel owner repo state labels assignee per_page
    page tok w :
  environ !! "GITHUB_TOKEN" = Some tok -> tok <> "" ->
  exists ps,
    transmits (get_all (S fuel) owner repo state labels assignee per_page page)
      w ps /\
    ps = issues_params state labels assignee None None None per_page page /\
    ps !! "creator" = None /\ ps !! "mentioned" = None /\
    ps !! "since" = None /\
    ps !! "per_page" = Some (QInt (Z.min per_page 100)).
Proof.
  intros Henv Htok. eexists. split; [|split; [reflexivity|]].
  - set (reader := mkReader tok "https://api.github.com"
                     (CaseInsensitiveDict.update
                        [("Authorization", "token " +:+ tok);
                         ("Accept", "application/vnd.github.v3+json");
                         ("User-Agent", "Claude-MCP-GitHub-Integration")]
                        default_headers)).
    destruct (list_issues_transmits transport clock datetime isoformat fuel
                reader owner repo state labels assignee None None None
                per_page page w) as (req & k & Hk & Hps).
    exists req, k. split; [|exact Hps]. rewrite <- Hk.
    apply transmitted_ext. unfold mcp_list_issues.
    rewrite (bind_ret_l _ _ _ _ _ (init_env tok w Henv Htok)). fold reader.
    rewrite bind_pure_world; [done|]. intros issues_data.
    apply is_pure_bind; [apply is_pure_iter|]. intros l.
    apply is_pure_bind; [|intros; apply is_pure_ret].
    apply is_pure_comprehension. apply is_pure_mcp_format.
  - unfold list_issues_params. simpl set_since. simpl set_if.
    rewrite !lookup_set_if_ne, !lookup_set_labels_ne by done.
    rewrite !lookup_base by done.
    split; [done|]. split; [done|]. split; [done|].
    rewrite lookup_insert_ne by done. by rewrite lookup_insert_eq.
Qed.

End ClientFacts.

(** * Further properties of the reshaping layer *)

Lemma bind_return_inv {A B : Type} (m : M A) (k : A -> M B) w b w' :
  bind m k w = (Return b, w') ->
  exists a w1, m w = (Return a, w1) /\ k a w1 = (Return b, w').
Proof.
  unfold bind. destruct (m w) as [[a|e|] w1]; [eauto|done|done].
Qed.

Lemma getitem_return_inv v k x w w' :
  getitem v k w = (Return x, w') -> field k v = Some x /\ w' = w.
Proof.
  destruct v; try done. simpl. unfold of_option.
  destruct (assoc k items); [|done]. by intros [= -> ->].
Qed.

Lemma comprehension_getitem_inv k ls : forall xs w w',
  comprehension (fun v => getitem v k) ls w = (Return xs, w') ->
  Forall2 (fun v x => field k v = Some x) ls xs /\ w' = w.
Proof.
  induction ls as [|v ls IH]; intros xs w w' H.
  - injection H as <- <-. by split; [constructor|].
  - simpl in H. apply bind_return_inv in H as (x & w1 & Hx & H).
    apply getitem_return_inv in Hx as [Hx ->].
    apply bind_return_inv in H as (xs' & w2 & Hxs & H).
    apply IH in Hxs as [Hxs ->]. injection H as <- <-.
    split; [by constructor|done].
Qed.

(** X17. The projection returns a record only if every field it reads is
    there: whenever [mcp_format] returns, the raw value had all ten expected
    fields, the eight scalar ones are in the result as they were, and every
    element the label and assignee lists iterate over had its [name] or
    [login], which make up the two lists in order. No entry of the result
    comes from anywhere else. *)
Theorem projection_returns_only_complete raw out :
  projection raw = Return out ->
  exists title body state number created_at updated_at raw_labels labels names
         raw_assignees assignees logins comments html_url,
    field "title" raw = Some title /\ field "body" raw = Some body /\
    field "state" raw = Some state /\ field "number" raw = Some number /\
    field "created_at" raw = Some created_at /\
    field "updated_at" raw = Some updated_at /\
    field "labels" raw = Some raw_labels /\
    (iter raw_labels (mkWorld [] 0 [])).1 = Return labels /\
    Forall2 (fun l x => field "name" l = Some x) labels names /\
    field "assignees" raw = Some raw_assignees /\
    (iter raw_assignees (mkWorld [] 0 [])).1 = Return assignees /\
    Forall2 (fun a x => field "login" a = Some x) assignees logins /\
    field "comments" raw = Some comments /\
    field "html_url" raw = Some html_url /\
    out = JObj [("title", title); ("body", body); ("state", state);
                ("number", number); ("created_at", created_at);
                ("updated_at", updated_at); ("labels", JArr names);
                ("assignees", JArr logins);
                ("comments_count", comments); ("url", html_url)].
Proof.
  unfold projection, mcp_format. set (w := mkWorld [] 0 []).
  match goal with |- (?m w).1 = _ -> _ => destruct (m w) as [o w'] eqn:H end.
  simpl. intros ->.
  apply bind_return_inv in H as (title & w1 & H1 & H).
  apply getitem_return_inv in H1 as [Ht ->].
  apply bind_return_inv in H as (body & w1 & H1 & H).
  apply getitem_return_inv in H1 as [Hb ->].
  apply bind_return_inv in H as (state & w1 & H1 & H).
  apply getitem_return_inv in H1 as [Hs ->].
  apply bind_return_inv in H as (number & w1 & H1 & H).
  apply getitem_return_inv in H1 as [Hn ->].
  apply bind_return_inv in H as (created_at & w1 & H1 & H).
  apply getitem_return_inv in H1 as [Hc ->].
  apply bind_return_inv in H as (updated_at & w1 & H1 & H).
  apply getitem_return_inv in H1 as [Hu ->].
  apply bind_return_inv in H as (raw_labels & w1 & H1 & H).
  apply getitem_return_inv in H1 as [Hl ->].
  apply bind_return_inv in H as (labels & w1 & Hil & H).
  assert (w1 = w) as ->.
  { destruct (is_pure_iter raw_labels) as [o Ho]. rewrite Ho in Hil.
    by injection Hil. }
  apply bind_return_inv in H as (names & w1 & H1 & H).
  apply comprehension_getitem_inv in H1 as [Hnames ->].
  apply bind_return_inv in H as (raw_assignees & w1 & H1 & H).
  apply getitem_return_inv in H1 as [Ha ->].
  apply bind_return_inv in H as (assignees & w1 & Hia & H).
  assert (w1 = w) as ->.
  { destruct (is_pure_iter raw_assignees) as [o Ho]. rewrite Ho in Hia.
    by injection Hia. }
  apply bind_return_inv in H as (logins & w1 & H1 & H).
  apply comprehension_getitem_inv in H1 as [Hlogins ->].
  apply bind_return_inv in H as (comments & w1 & H1 & H).
  apply getitem_return_inv in H1 as [Hco ->].
  apply bind_return_inv in H as (html_url & w1 & H1 & H).
  apply getitem_return_inv in H1 as [Hh ->].
  injection H as <- _.
  exists title, body, state, number, created_at, updated_at, raw_labels, labels,
    names, raw_assignees, assignees, logins, comments, html_url.
  rewrite Hil, Hia. repeat (split; [done|]). done.
Qed.

Lemma comprehension_first_failure good bad rest outs e w :
  Forall2 (fun raw out => projection raw = Return out) good outs ->
  projection bad = Raise e ->
  comprehension mcp_format (good ++ bad :: rest) w = (Raise e, w).
Proof.
  intros Hgood Hbad. induction Hgood as [|raw out good outs Hraw _ IH]; simpl.
  - rewrite (bind_raise_l _ _ e w w); [done|].
    by rewrite mcp_format_projection, Hbad.
  - rewrite (bind_ret_l _ _ out w w) by by rewrite mcp_format_projection, Hraw.
    by rewrite (bind_raise_l _ _ e w w).
Qed.

Section ReshapingFacts.

Variable transport : nat -> Request -> Response.
Variable clock : nat -> Z.
Variable environ : gmap string string.
Variable default_headers : gmap string string.
Variable datetime : Type.
Variable isoformat : datetime -> string.

Local Abbreviation get_all :=
  (mcp_list_issues transport clock environ default_headers datetime isoformat).

(** X18. [mcp_list_issues] reshapes the records in order and stops at the
    first one that fails: when the records before it project to values and
    it raises [e], the call raises [e], whatever the records after it are;
    no partial list is returned. *)
Theorem first_bad_record_raises fuel owner repo state labels assignee per_page
    page tok good bad rest e w :
  environ !! "GITHUB_TOKEN" = Some tok -> tok <> "" ->
  answers transport w (JArr (good ++ bad :: rest)) ->
  Forall (fun raw => exists out, projection raw = Return out) good ->
  projection bad = Raise e ->
  (get_all (S fuel) owner repo state labels assignee per_page page w).1
  = Raise e.
Proof.
  intros Henv Htok Hans Hgood Hbad.
  destruct (projections_exist good Hgood) as [outs Houts].
  destruct (mcp_list_issues_comprehension transport clock environ
              default_headers datetime isoformat fuel owner repo state labels
              assignee per_page page tok (good ++ bad :: rest) w Henv Htok Hans)
    as [w' Hw'].
  rewrite Hw'.
  by rewrite (bind_raise_l _ _ e w' w'
                (comprehension_first_failure good bad rest outs e w' Houts Hbad)).
Qed.

End ReshapingFacts.

(** * Instances of the further properties *)

Lemma http_error_raised_at_once_witness :
  let m := _make_request (Mock.script [] Mock.not_found) Mock.clock 1
             Mock.reader "GET" "/x" None in
  (m Mock.w0).1 = Raise (HTTPError Mock.not_found) /\
  transmitted m Mock.w0 = [mkRequest "GET" "/x" None ∅] /\
  sleeps m Mock.w0 = [].
Proof.
  intros m.
  destruct (http_error_raised_at_once (Mock.script [] Mock.not_found) Mock.clock
              0 Mock.reader "GET" "/x" None Mock.w0)
    as (H1 & H2 & H3 & _); [simpl; lia|simpl; lia|].
  split; [exact H1|]. split; [exact H2|exact H3].
Defined.

Lemma other_status_retried_witness :
  _make_request (Mock.script [Mock.no_content] (Mock.ok JNull)) Mock.clock 2
    Mock.reader "GET" "/x" None Mock.w0 =
  _make_request (Mock.script [Mock.no_content] (Mock.ok JNull)) Mock.clock 1
    Mock.reader "GET" "/x" None (mkWorld [mkRequest "GET" "/x" None ∅] 0 []).
Proof.
  apply (other_status_retried (Mock.script [Mock.no_content] (Mock.ok JNull))
           Mock.clock 1 Mock.reader "GET" "/x" None Mock.w0); simpl; lia.
Defined.




Lemma init_session_witness :
  exists reader,
    __init__ Mock.environ ∅ None Mock.w0 = (Return reader, Mock.w0) /\
    CaseInsensitiveDict.get "authorization" (session_headers reader)
    = Some ("token " +:+ token reader).
Proof.
  eexists. split; [reflexivity|].
  match goal with
  | |- CaseInsensitiveDict.get _ (session_headers ?r) = _ =>
      destruct (init_session Mock.environ ∅ None r Mock.w0 Mock.w0 eq_refl)
        as (_ & _ & _ & H & _)
  end.
  exact H.
Defined.

Lemma mcp_get_issue_request_witness :
  exists k req,
    transmitted
      (mcp_get_issue (Mock.script [] (Mock.ok Mock.issue)) Mock.clock
         Mock.environ ∅ 1 "o" "r" 7) Mock.w0 = repeat req (S k) /\
    url req = "https://api.github.com/repos/o/r/issues/7" /\
    CaseInsensitiveDict.get "Authorization" (request_headers req)
    = Some "token secret".
Proof.
  destruct (mcp_get_issue_request (Mock.script [] (Mock.ok Mock.issue))
              Mock.clock Mock.environ ∅ 0 "o" "r" 7 "secret" Mock.w0)
    as (k & req & H1 & _ & H2 & _ & H3); [reflexivity|done|].
  exists k, req. split; [exact H1|]. split; [exact H2|exact H3].
Defined.

Lemma fetchers_pass_through_witness :
  (get_issue (Mock.script [] (Mock.ok Mock.issue)) Mock.clock 1 Mock.reader
     "o" "r" 7 Mock.w0).1 = Return Mock.issue.
Proof.
  destruct (fetchers_pass_through (Mock.script [] (Mock.ok Mock.issue))
              Mock.clock unit (fun _ => "") 0 Mock.reader "o" "r" 7 "open" None
              None None None None 30 1 Mock.issue Mock.w0)
    as ((H & _) & _); [apply answers_mock|exact H].
Defined.

Lemma http_error_propagates_witness :
  exists r,
    (mcp_get_issue (Mock.script [] Mock.not_found) Mock.clock Mock.environ ∅ 1
       "o" "r" 7 Mock.w0).1 = Raise (HTTPError r) /\
    400 <= status_code r < 600 /\ status_code r <> 403.
Proof.
  destruct (http_error_propagates (Mock.script [] Mock.not_found) Mock.clock
              Mock.environ ∅ unit (fun _ => "") 0 Mock.reader "o" "r" 7 "open"
              None None None None None 30 1 "secret" Mock.w0)
    as (_ & _ & _ & H & _).
  - intros req. simpl. lia.
  - reflexivity.
  - done.
  - exact H.
Defined.

Lemma mcp_requires_environment_token_witness :
  exists msg,
    mcp_get_issue (Mock.script [] (Mock.ok Mock.issue)) Mock.clock ∅ ∅ 1
      "o" "r" 7 Mock.w0 = (Raise (ValueError msg), Mock.w0).
Proof.
  eexists.
  apply (mcp_requires_environment_token (Mock.script [] (Mock.ok Mock.issue))
           Mock.clock ∅ ∅ unit (fun _ => "") 1 "o" "r" 7 "open" None None 30 1
           Mock.w0).
  left. apply lookup_empty.
Defined.

Lemma since_normalised_witness :
  (exists ps,
     transmits
       (list_issues (Mock.script [] (Mock.ok (JArr []))) Mock.clock unit
          (fun _ => "2024-01-01T00:00:00") 1 Mock.reader "o" "r" "open" None
          None None None (Some (SinceDatetime tt)) 30 1) Mock.w0 ps /\
     ps !! "since" = Some (QStr "2024-01-01T00:00:00")) /\
  (exists ps,
     transmits
       (list_issues (Mock.script [] (Mock.ok (JArr []))) Mock.clock unit
          (fun _ => "2024-01-01T00:00:00") 1 Mock.reader "o" "r" "open" None
          None None None (Some (SinceStr "")) 30 1) Mock.w0 ps /\
     ps !! "since" = None) /\
  (exists ps,
     transmits
       (list_issues (Mock.script [] (Mock.ok (JArr []))) Mock.clock unit
          (fun _ => "2024-01-01T00:00:00") 1 Mock.reader "o" "r" "open" None
          None None None (Some (SinceStr "yesterday")) 30 1) Mock.w0 ps /\
     ps !! "since" = Some (QStr "yesterday")).
Proof.
  split; [|split].
  - destruct (since_normalised (Mock.script [] (Mock.ok (JArr []))) Mock.clock
                unit (fun _ => "2024-01-01T00:00:00") 0 Mock.reader "o" "r"
                "open" None None None None (Some (SinceDatetime tt)) 30 1
                Mock.w0) as (ps & Hps & _ & _ & H).
    exists ps. split; [exact Hps|]. by apply (H tt).
  - destruct (since_normalised (Mock.script [] (Mock.ok (JArr []))) Mock.clock
                unit (fun _ => "2024-01-01T00:00:00") 0 Mock.reader "o" "r"
                "open" None None None None (Some (SinceStr "")) 30 1
                Mock.w0) as (ps & Hps & H & _).
    exists ps. split; [exact Hps|]. apply H. by right.
  - destruct (since_normalised (Mock.script [] (Mock.ok (JArr []))) Mock.clock
                unit (fun _ => "2024-01-01T00:00:00") 0 Mock.reader "o" "r"
                "open" None None None None (Some (SinceStr "yesterday")) 30 1
                Mock.w0) as (ps & Hps & _ & H & _).
    exists ps. split; [exact Hps|]. by apply H.
Defined.

Lemma query_keys_witness :
  exists ps,
    transmits
      (list_issues (Mock.script [] (Mock.ok (JArr []))) Mock.clock unit
         (fun _ => "") 1 Mock.reader "o" "r" "open" (Some []) None None None
         None 30 1) Mock.w0 ps /\
    ps !! "labels" = None /\ ps !! "q" = None.
Proof.
  destruct (query_keys (Mock.script [] (Mock.ok (JArr []))) Mock.clock unit
              (fun _ => "") 0 Mock.reader "o" "r" "open" (Some []) None None
              None None 7 30 1 Mock.w0) as (ps & _ & Hps & _ & Hkeys & _ & Hl).
  exists ps. split; [exact Hps|]. split; [apply Hl; by right|].
  destruct (ps !! "q") as [v|] eqn:Hq; [|reflexivity].
  exfalso. assert (Hin : "q" ∈ ["state"; "per_page"; "page"; "labels";
                                "assignee"; "creator"; "mentioned"; "since"]).
  { apply Hkeys. rewrite Hq. by eexists. }
  repeat (apply elem_of_cons in Hin as [Hin|Hin]; [discriminate Hin|]).
  by apply elem_of_nil in Hin.
Defined.

Lemma mcp_list_issues_query_witness :
  exists ps,
    transmits
      (mcp_list_issues (Mock.script [] (Mock.ok (JArr []))) Mock.clock
         Mock.environ ∅ unit (fun _ => "") 1 "o" "r" "open" None None 250 1)
      Mock.w0 ps /\
    ps !! "creator" = None /\ ps !! "per_page" = Some (QInt 100).
Proof.
  destruct (mcp_list_issues_query (Mock.script [] (Mock.ok (JArr [])))
              Mock.clock Mock.environ ∅ unit (fun _ => "") 0 "o" "r" "open" None
              None 250 1 "secret" Mock.w0)
    as (ps & Hps & _ & Hc & _ & _ & Hpp); [reflexivity|done|].
  exists ps. split; [exact Hps|]. split; [exact Hc|exact Hpp].
Defined.

Lemma projection_returns_only_complete_witness :
  exists title html_url,
    field "title" Mock.issue = Some title /\
    field "html_url" Mock.issue = Some html_url /\
    field "title" Mock.simplified = Some title /\
    field "url" Mock.simplified = Some html_url.
Proof.
  destruct (projection_returns_only_complete Mock.issue Mock.simplified eq_refl)
    as (title & body & state & number & created_at & updated_at & raw_labels
        & labels & names & raw_assignees & assignees & logins & comments
        & html_url & Ht & _ & _ & _ & _ & _ & _ & _ & _ & _ & _ & _ & _ & Hh
        & Hout).
  exists title, html_url. split; [exact Ht|]. split; [exact Hh|].
  injection Hout as <- _ _ _ _ _ _ _ _ <-. split; reflexivity.
Defined.

Lemma first_bad_record_raises_witness :
  (mcp_list_issues
     (Mock.script []
        (Mock.ok (JArr ([Mock.issue] ++ JObj Mock.partial_issue :: [JNull]))))
     Mock.clock Mock.environ ∅ unit (fun _ => "") 1 "o" "r" "open" None None
     30 1 Mock.w0).1 = Raise (KeyError "html_url").
Proof.
  apply (first_bad_record_raises
           (Mock.script []
              (Mock.ok (JArr ([Mock.issue] ++ JObj Mock.partial_issue :: [JNull]))))
           Mock.clock Mock.environ ∅ unit (fun _ => "") 0 "o" "r" "open" None
           None 30 1 "secret" [Mock.issue] (JObj Mock.partial_issue) [JNull]
           (KeyError "html_url") Mock.w0).
  - reflexivity.
  - done.
  - apply answers_mock.
  - repeat constructor. exists Mock.simplified. reflexivity.
  - reflexivity.
Defined.

